(** * A Telegram bot gateway behind a subscription check

    Shallow embedding of [main.py]: the profile and event tables, the
    access gate ([check_flyer], [ensure_access]), the [/start] and [/menu]
    handlers, the webhook handler and the start-up configuration checks.

    Conventions.
    - Incoming texts (command texts, tokens, JSON strings, environment
      values) are [string]s read as sequences of code points below 256;
      the literal texts the program sends or raises are given by their
      UTF-8 bytes.
    - The two tables are lists of rows in insertion order; the unique index
      on [tg_id] is what [ON CONFLICT] consults, so it is modelled by the
      search that the upsert performs, not by the type of the table.
    - Handlers run in a state-and-exception monad over a [world]: the
      database, the number of SQL statements executed so far, the trace of
      calls to the check service, and the messages sent.  A raised exception
      keeps the effects already performed (every statement autocommits).
    - [NOW()] and the check service are oracles of the environment, and
      so is the builtin [int] at start-up.
    - Identities are integers; the driver refuses one that does not fit
      the 64 bits of a [BIGINT] parameter. *)

From Stdlib Require Import String Ascii List ZArith NArith Bool Lia.
Import ListNotations.

Local Open Scope string_scope.
Local Open Scope Z_scope.
Local Open Scope list_scope.

Set Warnings "-register-all".

(** ** Python values and primitives *)

Inductive exn : Type :=
| IndexError
| AttributeError
| ValueError
| JSONDecodeError
| UnicodeDecodeError
| RecursionError
| RuntimeError (msg : string)
| DataError
| FlyerError.

(** Objects produced by decoding a JSON document (numbers restricted to
    integers).  A [PDict] keeps its members in document order. *)
Inductive pyval : Type :=
| PNone
| PBool (b : bool)
| PInt (n : Z)
| PStr (s : string)
| PList (l : list pyval)
| PDict (members : list (string * pyval)).

(** Truth value of an optional boolean: [None] is falsy. *)
Definition truthy (b : option bool) : bool :=
  match b with
  | Some true => true
  | _ => false
  end.

(** Truth value of an optional text: [None] and the empty text are falsy. *)
Definition str_truthy (s : option string) : bool :=
  match s with
  | Some EmptyString => false
  | Some _ => true
  | None => false
  end.

(** [x or d] for an optional text [x]. *)
Definition str_or (x : option string) (d : string) : string :=
  match x with
  | Some s => if str_truthy x then s else d
  | None => d
  end.

(** [str.isspace] on one character: the code points below 256 that Python
    counts as white space. *)
Definition isspace (c : ascii) : bool :=
  let n := N_of_ascii c in
  (((9 <=? n) && (n <=? 13)) || ((28 <=? n) && (n <=? 32))
   || (n =? 133) || (n =? 160))%N.

(** [s.split(sep)] for a one-character separator: every occurrence of the
    separator cuts, so adjacent separators give empty pieces. *)
Fixpoint split_sep (sep : ascii) (s : string) : list string :=
  match s with
  | EmptyString => [EmptyString]
  | String c rest =>
      if Ascii.eqb c sep then EmptyString :: split_sep sep rest
      else match split_sep sep rest with
           | piece :: pieces => String c piece :: pieces
           | [] => [String c EmptyString]
           end
  end.

(** [s.split()]: the maximal runs of characters that are not white space.
    [tok] is the run being read, if any. *)
Fixpoint split_ws_from (tok : option string) (s : string) : list string :=
  match s with
  | EmptyString =>
      match tok with
      | Some t => [t]
      | None => []
      end
  | String c rest =>
      if isspace c then
        match tok with
        | Some t => t :: split_ws_from None rest
        | None => split_ws_from None rest
        end
      else
        match tok with
        | Some t => split_ws_from (Some (t ++ String c EmptyString)%string) rest
        | None => split_ws_from (Some (String c EmptyString)) rest
        end
  end.

Definition split_ws (s : string) : list string := split_ws_from None s.

(** [d.get(key)] on the members of a dict: the last member with that key is
    the one the decoder kept. *)
Fixpoint members_get (key : string) (members : list (string * pyval))
  : option pyval :=
  match members with
  | [] => None
  | (k, v) :: rest =>
      match members_get key rest with
      | Some v' => Some v'
      | None => if String.eqb k key then Some v else None
      end
  end.

(** [obj.get(key, default)]: only a dict has the method. *)
Definition py_get (obj : pyval) (key : string) (default : pyval)
  : exn + pyval :=
  match obj with
  | PDict members =>
      match members_get key members with
      | Some v => inr v
      | None => inr default
      end
  | _ => inl AttributeError
  end.

(** [obj == "text"] for a decoded object. *)
Definition py_eq_str (obj : pyval) (s : string) : bool :=
  match obj with
  | PStr t => String.eqb t s
  | _ => false
  end.

(** ** The command text of [/start] *)

(** [message.text.split(" ")[1] if len(message.text.split()) > 1 else None] *)
Definition start_source (text : string) : exn + option string :=
  if (1 <? length (split_ws text))%nat then
    match nth_error (split_sep " " text) 1 with
    | Some piece => inr (Some piece)
    | None => inl IndexError
    end
  else inr None.

(** ** The relational store *)

(** A row of [users]. *)
Record user_row : Type := {
  u_id : Z;
  u_tg_id : Z;
  u_is_premium : bool;
  u_source : option string;
  u_flyer_passed : bool;
  u_created_at : Z;
  u_last_seen_at : Z
}.

(** A row of [traffic_log]. *)
Record log_row : Type := {
  l_id : Z;
  l_tg_id : Z;
  l_event : string;
  l_source : option string;
  l_is_premium : option bool;
  l_created_at : Z
}.

(** The two tables, each with the sequence behind its [BIGSERIAL] key. *)
Record database : Type := {
  users : list user_row;
  users_seq : Z;
  traffic_log : list log_row;
  traffic_log_seq : Z
}.

(** The store right after [init_db] on a fresh database. *)
Definition empty_db : database :=
  {| users := []; users_seq := 1; traffic_log := []; traffic_log_seq := 1 |}.

Definition int8_min : Z := - 2 ^ 63.
Definition int8_max : Z := 2 ^ 63 - 1.

Definition in_int8 (n : Z) : bool := (int8_min <=? n) && (n <=? int8_max).

(** Passing a Python object for a [BIGINT] parameter: [None] is [NULL], an
    integer must fit 64 bits, a boolean is the integer 0 or 1, anything
    else is refused by the driver. *)
Definition int8_encode (v : pyval) : exn + option Z :=
  match v with
  | PNone => inr None
  | PInt n => if in_int8 n then inr (Some n) else inl DataError
  | PBool b => inr (Some (Z.b2z b))
  | _ => inl DataError
  end.

(** [COALESCE(a, b)] *)
Definition coalesce {A : Type} (a b : option A) : option A :=
  match a with
  | Some _ => a
  | None => b
  end.

(** The [DO UPDATE SET ...] clause applied to the row in conflict;
    [EXCLUDED] is the row proposed for insertion. *)
Definition on_conflict_update (now : Z) (old excluded : user_row) : user_row :=
  {| u_id := u_id old;
     u_tg_id := u_tg_id old;
     u_is_premium := u_is_premium excluded;
     u_source := coalesce (u_source old) (u_source excluded);
     u_flyer_passed := u_flyer_passed old || u_flyer_passed excluded;
     u_created_at := u_created_at old;
     u_last_seen_at := now |}.

(** The first row of an identity, if any. *)
Definition find_user (tg : Z) (rows : list user_row) : option user_row :=
  find (fun r => u_tg_id r =? tg) rows.

(** [INSERT INTO users (tg_id, is_premium, source, flyer_passed)
     VALUES ($1, $2, $3, $4) ON CONFLICT (tg_id) DO UPDATE SET ...].
    The proposed row takes its key from the sequence before the unique
    index is consulted, so the sequence advances on either branch. *)
Definition sql_upsert_user (now : Z) (tg : Z) (premium : bool)
    (source : option string) (passed : bool) (d : database) : database :=
  let excluded :=
    {| u_id := users_seq d;
       u_tg_id := tg;
       u_is_premium := premium;
       u_source := source;
       u_flyer_passed := passed;
       u_created_at := now;
       u_last_seen_at := now |} in
  let rows :=
    if existsb (fun r => u_tg_id r =? tg) (users d) then
      map (fun r => if u_tg_id r =? tg
                    then on_conflict_update now r excluded else r) (users d)
    else users d ++ [excluded] in
  {| users := rows;
     users_seq := users_seq d + 1;
     traffic_log := traffic_log d;
     traffic_log_seq := traffic_log_seq d |}.

(** [INSERT INTO traffic_log (tg_id, event, source, is_premium)
     VALUES ($1, $2, $3, $4)] *)
Definition sql_insert_log (now : Z) (tg : Z) (event : string)
    (source : option string) (premium : bool) (d : database) : database :=
  {| users := users d;
     users_seq := users_seq d;
     traffic_log := traffic_log d ++
       [{| l_id := traffic_log_seq d;
           l_tg_id := tg;
           l_event := event;
           l_source := source;
           l_is_premium := Some premium;
           l_created_at := now |}];
     traffic_log_seq := traffic_log_seq d + 1 |}.

Definition set_flyer_passed (r : user_row) : user_row :=
  {| u_id := u_id r;
     u_tg_id := u_tg_id r;
     u_is_premium := u_is_premium r;
     u_source := u_source r;
     u_flyer_passed := true;
     u_created_at := u_created_at r;
     u_last_seen_at := u_last_seen_at r |}.

(** [UPDATE users SET flyer_passed = TRUE WHERE tg_id = $1]; a [NULL]
    parameter compares equal to no row. *)
Definition sql_update_passed (tg : option Z) (d : database) : database :=
  match tg with
  | None => d
  | Some t =>
      {| users := map (fun r => if u_tg_id r =? t
                                then set_flyer_passed r else r) (users d);
         users_seq := users_seq d;
         traffic_log := traffic_log d;
         traffic_log_seq := traffic_log_seq d |}
  end.

(** One row per external identity. *)
Definition one_row_per_identity (d : database) : Prop :=
  NoDup (map u_tg_id (users d)).

(** The number of rows of an identity. *)
Definition count_rows (tg : Z) (rows : list user_row) : nat :=
  length (filter (fun r => u_tg_id r =? tg) rows).

(** ** Start-up configuration *)

Record config : Type := {
  BOT_TOKEN : string;
  FLYER_KEY_PREMIUM : string;
  FLYER_KEY_REGULAR : string;
  DATABASE_URL : string;
  PORT : Z
}.

(** [os.getenv(name)] *)
Definition environ : Type := string -> option string.

(** [os.getenv(name, default)] *)
Definition getenv_default (env : environ) (name default : string) : string :=
  match env name with
  | Some v => v
  | None => default
  end.

(** [if not VALUE: raise RuntimeError(msg)] *)
Definition required (value : option string) (msg : string) : exn + string :=
  match value with
  | Some v => if str_truthy value then inr v else inl (RuntimeError msg)
  | None => inl (RuntimeError msg)
  end.

Section Startup.

(** The builtin [int] on a text, [ValueError] included. *)
Variable py_int : string -> exn + Z.

(** The module-level reads and checks, in the order of the module. *)
Definition load_config (env : environ) : exn + config :=
  let bot_token := env "BOT_TOKEN" in
  let flyer_key_premium := env "FLYER_KEY_PREMIUM" in
  let flyer_key_regular := env "FLYER_KEY_REGULAR" in
  let database_url := env "DATABASE_URL" in
  match py_int (getenv_default env "PORT" "8000") with
  | inl e => inl e
  | inr port =>
  match required bot_token "❌ Missing BOT_TOKEN" with
  | inl e => inl e
  | inr token =>
  match required flyer_key_premium "❌ Missing FLYER_KEY_PREMIUM" with
  | inl e => inl e
  | inr key_premium =>
  match required flyer_key_regular "❌ Missing FLYER_KEY_REGULAR" with
  | inl e => inl e
  | inr key_regular =>
  match required database_url "❌ Missing DATABASE_URL" with
  | inl e => inl e
  | inr url =>
      inr {| BOT_TOKEN := token;
             FLYER_KEY_PREMIUM := key_premium;
             FLYER_KEY_REGULAR := key_regular;
             DATABASE_URL := url;
             PORT := port |}
  end end end end end.

End Startup.

(** ** Bot platform objects, the world and its monad *)

Record user : Type := {
  user_id : Z;
  user_is_premium : option bool;
  user_language_code : option string
}.

Record message : Type := {
  from_user : user;
  text : string;
  chat_id : Z
}.

Record callback_query : Type := {
  cq_from_user : user
}.

(** An incoming HTTP request, by what [await request.json()] does with
    its body: it returns the decoded object, or raises whatever exception
    the decoding raises. *)
Record request : Type := {
  json_body : exn + pyval
}.

(** One call [flyer_client.check(user_id=..., language_code=...)], with the
    key the client was built from. *)
Record flyer_call : Type := {
  call_key : string;
  call_user_id : Z;
  call_language_code : string
}.

(** One [message.answer(text)]. *)
Record sent : Type := {
  sent_chat : Z;
  sent_text : string
}.

Record world : Type := {
  db : database;
  statements : nat;
  flyer_calls : list flyer_call;
  outbox : list sent
}.

Definition initial_world : world :=
  {| db := empty_db; statements := 0%nat; flyer_calls := []; outbox := [] |}.

Definition M (A : Type) : Type := world -> (exn + A) * world.

Definition ret {A : Type} (a : A) : M A := fun w => (inr a, w).

Definition bind {A B : Type} (m : M A) (k : A -> M B) : M B :=
  fun w =>
    match m w with
    | (inr a, w') => k a w'
    | (inl e, w') => (inl e, w')
    end.

Definition lift {A : Type} (r : exn + A) : M A := fun w => (r, w).

Notation "x <- m ;; k" := (bind m (fun x => k))
  (at level 61, m at next level, right associativity).
Notation "m ;; k" := (bind m (fun _ => k))
  (at level 61, right associativity).

(** Passing an [int] for a [BIGINT] parameter. *)
Definition int8_param (n : Z) : exn + Z :=
  match int8_encode (PInt n) with
  | inr (Some v) => inr v
  | inr None => inl DataError
  | inl e => inl e
  end.

(** The acknowledgement [{"status": True}]. *)
Definition status_true : pyval := PDict [("status", PBool true)].

(** The reply of [/start]. *)
Definition welcome_text (premium : bool) : string :=
  "👋 Добро пожаловать!" ++ String "010" (String "010" "") ++
  "Premium: " ++ (if premium then "💎 Да" else "❌ Нет") ++ String "010" "" ++
  "Проверки пройдены." ++ String "010" "" ++
  "/menu - открыть меню".

(** The reply of [/menu]. *)
Definition menu_text : string := "📍 Пример меню — функционал будет тут.".

(** ** A small scenario on which the definitions are run *)

Definition demo_cfg : config :=
  {| BOT_TOKEN := "bot-token";
     FLYER_KEY_PREMIUM := "key-premium";
     FLYER_KEY_REGULAR := "key-regular";
     DATABASE_URL := "postgres://store";
     PORT := 8000 |}.

Definition demo_now (k : nat) : Z := 1000 + Z.of_nat k.

Definition deny_all (k : nat) (c : flyer_call) : exn + bool := inr false.

Definition allow_all (k : nat) (c : flyer_call) : exn + bool := inr true.

(** Allows the first call only. *)
Definition allow_once (k : nat) (c : flyer_call) : exn + bool :=
  inr (k =? 0)%nat.

(** The check service is down. *)
Definition flyer_down (k : nat) (c : flyer_call) : exn + bool :=
  inl FlyerError.

Definition user42 : user :=
  {| user_id := 42; user_is_premium := None; user_language_code := None |}.

Definition premium7 : user :=
  {| user_id := 7;
     user_is_premium := Some true;
     user_language_code := Some "en" |}.

Definition start42 : message :=
  {| from_user := user42; text := "/start"; chat_id := 42 |}.

Definition menu42 : message :=
  {| from_user := user42; text := "/menu"; chat_id := 42 |}.

Definition start7 : message :=
  {| from_user := premium7; text := "/start promo1"; chat_id := 7 |}.

Definition callback42 : callback_query := {| cq_from_user := user42 |}.

Definition not_json : request := {| json_body := inl JSONDecodeError |}.

(** A body that is not UTF-8. *)
Definition not_utf8 : request := {| json_body := inl UnicodeDecodeError |}.

Definition sub_completed (user_id : pyval) : request :=
  {| json_body :=
       inr (PDict [("type", PStr "sub_completed");
                   ("data", PDict [("user_id", user_id)])]) |}.

Definition sub_completed_no_user : request :=
  {| json_body := inr (PDict [("type", PStr "sub_completed");
                              ("data", PDict [])]) |}.

(** The same with [data] null. *)
Definition sub_completed_null_data : request :=
  {| json_body := inr (PDict [("type", PStr "sub_completed");
                              ("data", PNone)]) |}.

(** A profile of user 42. *)
Definition row42 (source : option string) (passed : bool) : user_row :=
  {| u_id := 1; u_tg_id := 42; u_is_premium := false;
     u_source := source; u_flyer_passed := passed;
     u_created_at := 900; u_last_seen_at := 900 |}.

(** A world whose store holds one profile and nothing else. *)
Definition world_of (r : user_row) : world :=
  {| db := {| users := [r]; users_seq := 2;
              traffic_log := []; traffic_log_seq := 1 |};
     statements := 0%nat;
     flyer_calls := [];
     outbox := [] |}.

Definition world42 : world := world_of (row42 None false).

(** A profile of user 7. *)
Definition row7 : user_row :=
  {| u_id := 2; u_tg_id := 7; u_is_premium := true;
     u_source := Some "promo1"; u_flyer_passed := false;
     u_created_at := 950; u_last_seen_at := 950 |}.

(** A world whose store holds the profiles of users 42 and 7. *)
Definition world_two : world :=
  {| db := {| users := [row42 None false; row7]; users_seq := 3;
              traffic_log := []; traffic_log_seq := 1 |};
     statements := 0%nat;
     flyer_calls := [];
     outbox := [] |}.

Definition ping : request :=
  {| json_body := inr (PDict [("type", PStr "ping")]) |}.

(** [int] on the plain decimal numerals, which is all the scenario is run
    on; every other text is refused here. *)
Fixpoint decimal_value (acc : Z) (s : string) : option Z :=
  match s with
  | EmptyString => Some acc
  | String c rest =>
      let n := Z.of_N (N_of_ascii c) in
      if (48 <=? n) && (n <=? 57)
      then decimal_value (10 * acc + (n - 48)) rest
      else None
  end.

Definition demo_int (s : string) : exn + Z :=
  match s with
  | EmptyString => inl ValueError
  | _ => match decimal_value 0 s with
         | Some v => inr v
         | None => inl ValueError
         end
  end.

(** An environment with the four required values and no [PORT]. *)
Definition demo_env : environ :=
  fun name =>
    if String.eqb name "BOT_TOKEN" then Some "bot-token"
    else if String.eqb name "FLYER_KEY_PREMIUM" then Some "key-premium"
    else if String.eqb name "FLYER_KEY_REGULAR" then Some "key-regular"
    else if String.eqb name "DATABASE_URL" then Some "postgres://store"
    else None.

(** The same without the store connection string. *)
Definition demo_env_no_url : environ :=
  fun name =>
    if String.eqb name "DATABASE_URL" then None else demo_env name.

(** ** The gateway *)

Section Gateway.

Set Default Proof Using "Type".

(** The loaded configuration. *)
Variable cfg : config.

(** [NOW()] as seen by the statement executed after [k] earlier ones. *)
Variable now : nat -> Z.

(** The answer of the check service to a call made after [k] earlier
    ones; a failure of the call is an exception. *)
Variable flyer : nat -> flyer_call -> exn + bool.

(** [async with db_pool.acquire() as conn: await conn.execute(...)] *)
Definition execute (stmt : Z -> database -> database) : M unit :=
  fun w =>
    (inr tt,
     {| db := stmt (now (statements w)) (db w);
        statements := S (statements w);
        flyer_calls := flyer_calls w;
        outbox := outbox w |}).

(** Both tables exist in every store of the model, so the two
    [CREATE TABLE IF NOT EXISTS] leave it as it is. *)
Definition init_db : M unit :=
  execute (fun _ d => d) ;;
  execute (fun _ d => d).

Definition upsert_user (u : user) (source : option string)
    (flyer_passed : bool) : M unit :=
  tg <- lift (int8_param (user_id u)) ;;
  execute (fun ts =>
    sql_upsert_user ts tg (truthy (user_is_premium u)) source flyer_passed).

Definition log_event (u : user) (event : string) (source : option string)
  : M unit :=
  tg <- lift (int8_param (user_id u)) ;;
  execute (fun ts =>
    sql_insert_log ts tg event source (truthy (user_is_premium u))).

(** [flyer_premium if user.is_premium else flyer_regular], as the key of
    the chosen client. *)
Definition flyer_client_key (u : user) : string :=
  if truthy (user_is_premium u)
  then FLYER_KEY_PREMIUM cfg else FLYER_KEY_REGULAR cfg.

Definition check_call (u : user) : flyer_call :=
  {| call_key := flyer_client_key u;
     call_user_id := user_id u;
     call_language_code := str_or (user_language_code u) "ru" |}.

Definition check_flyer (u : user) : M bool :=
  fun w =>
    (flyer (length (flyer_calls w)) (check_call u),
     {| db := db w;
        statements := statements w;
        flyer_calls := flyer_calls w ++ [check_call u];
        outbox := outbox w |}).

Definition ensure_access (m : message) (source : option string) : M bool :=
  let u := from_user m in
  log_event u "check_access" source ;;
  ok <- check_flyer u ;;
  upsert_user u source ok ;;
  ret ok.

Definition ensure_access_cb (call : callback_query) : M bool :=
  let u := cq_from_user call in
  ok <- check_flyer u ;;
  upsert_user u None ok ;;
  ret ok.

(** [message.answer(text)] *)
Definition answer (m : message) (body : string) : M unit :=
  fun w =>
    (inr tt,
     {| db := db w;
        statements := statements w;
        flyer_calls := flyer_calls w;
        outbox := outbox w ++ [{| sent_chat := chat_id m;
                                  sent_text := body |}] |}).

Definition start_cmd (m : message) : M unit :=
  source <- lift (start_source (text m)) ;;
  log_event (from_user m) "start" source ;;
  ok <- ensure_access m source ;;
  if negb ok then ret tt
  else answer m (welcome_text (truthy (user_is_premium (from_user m)))).

Definition menu_cmd (m : message) : M unit :=
  log_event (from_user m) "menu" None ;;
  ok <- ensure_access m None ;;
  if negb ok then ret tt
  else answer m menu_text.

Definition flyer_webhook (req : request) : M pyval :=
  payload <- lift (json_body req) ;;
  event_type <- lift (py_get payload "type" PNone) ;;
  data <- lift (py_get payload "data" (PDict [])) ;;
  (if py_eq_str event_type "sub_completed" then
     user_id <- lift (py_get data "user_id" PNone) ;;
     tg <- lift (int8_encode user_id) ;;
     execute (fun _ => sql_update_passed tg)
   else ret tt) ;;
  ret status_true.

(** The entry points, as one type of operations on the world. *)
Inductive operation : Type :=
| OpInitDb
| OpUpsertUser (u : user) (source : option string) (flyer_passed : bool)
| OpLogEvent (u : user) (event : string) (source : option string)
| OpCheckFlyer (u : user)
| OpEnsureAccess (m : message) (source : option string)
| OpEnsureAccessCb (call : callback_query)
| OpStart (m : message)
| OpMenu (m : message)
| OpWebhook (req : request).

(** The world an operation leaves behind, whether it returns or raises. *)
Definition perform (o : operation) (w : world) : world :=
  match o with
  | OpInitDb => snd (init_db w)
  | OpUpsertUser u source flyer_passed =>
      snd (upsert_user u source flyer_passed w)
  | OpLogEvent u event source => snd (log_event u event source w)
  | OpCheckFlyer u => snd (check_flyer u w)
  | OpEnsureAccess m source => snd (ensure_access m source w)
  | OpEnsureAccessCb call => snd (ensure_access_cb call w)
  | OpStart m => snd (start_cmd m w)
  | OpMenu m => snd (menu_cmd m w)
  | OpWebhook req => snd (flyer_webhook req w)
  end.

(** The stored profile of an identity. *)
Definition profile (tg : Z) (w : world) : option user_row :=
  find_user tg (users (db w)).


(** The world after a sequence of operations. *)
Definition perform_all (ops : list operation) (w : world) : world :=
  fold_left (fun w' o => perform o w') ops w.

(** A computation keeps a property of the store, whether it returns or
    raises. *)
Definition keeps_db {A : Type} (P : database -> Prop) (m : M A) : Prop :=
  forall w, P (db w) -> P (db (snd (m w))).

(** A computation moves the store along a relation, whether it returns or
    raises. *)
Definition moves_db {A : Type} (R : database -> database -> Prop) (m : M A)
  : Prop :=
  forall w, R (db w) (db (snd (m w))).

(** The handlers that the router and the web application register. *)
Definition registered (o : operation) : bool :=
  match o with
  | OpStart _ | OpMenu _ | OpWebhook _ => true
  | _ => false
  end.

(** The event names that appear in the handlers. *)
Definition handler_events : list string := ["start"; "menu"; "check_access"].

(** The event log only grows at its end. *)
Definition log_extends (d d' : database) : Prop :=
  exists added, traffic_log d' = traffic_log d ++ added.

(** Every profile is still there, under the same key and creation time,
    still passed if it was, with the source it had if it had one. *)
Definition profiles_persist (d d' : database) : Prop :=
  forall tg r,
    find_user tg (users d) = Some r ->
    exists r',
      find_user tg (users d') = Some r'
      /\ u_id r' = u_id r
      /\ u_created_at r' = u_created_at r
      /\ (u_flyer_passed r = true -> u_flyer_passed r' = true)
      /\ (forall s, u_source r = Some s -> u_source r' = Some s).

(** The primary keys of both tables are distinct and below their
    sequences. *)
Definition keys_fresh (d : database) : Prop :=
  NoDup (map u_id (users d))
  /\ Forall (fun r => u_id r < users_seq d) (users d)
  /\ NoDup (map l_id (traffic_log d))
  /\ Forall (fun e => l_id e < traffic_log_seq d) (traffic_log d).

(** The profile of one identity is the same in both stores. *)
Definition same_profile (tg : Z) (d d' : database) : Prop :=
  find_user tg (users d') = find_user tg (users d).

(** A run of upserts, one per observation (user, source, check result). *)
Fixpoint upsert_each (obs : list (user * option string * bool)) : M unit :=
  match obs with
  | [] => ret tt
  | (u, source, passed) :: rest =>
      upsert_user u source passed ;; upsert_each rest
  end.

(** The first source that is not null. *)
Definition first_source (sources : list (option string)) : option string :=
  fold_right coalesce None sources.

(** Every character of a text satisfies a test. *)
Fixpoint all_chars (p : ascii -> bool) (s : string) : bool :=
  match s with
  | EmptyString => true
  | String c rest => p c && all_chars p rest
  end.

Definition not_space (c : ascii) : bool := negb (isspace c).

Definition not_blank (c : ascii) : bool := negb (Ascii.eqb c " ").

(** ** Rows and searches *)

Lemma existsb_find_user (tg : Z) (rows : list user_row) :
  existsb (fun r => u_tg_id r =? tg) rows =
  match find_user tg rows with Some _ => true | None => false end.
Proof.
  unfold find_user. induction rows as [|r rows IH]; simpl; [reflexivity|].
  destruct (u_tg_id r =? tg); simpl; [reflexivity | exact IH].
Qed.

Lemma find_user_map (tg tg' : Z) (f : user_row -> user_row)
    (rows : list user_row) :
  (forall r, u_tg_id (f r) = u_tg_id r) ->
  find_user tg' (map (fun r => if u_tg_id r =? tg then f r else r) rows) =
  if tg' =? tg then option_map f (find_user tg rows)
  else find_user tg' rows.
Proof.
  intros Hf. unfold find_user.
  induction rows as [|r rows IH]; simpl.
  - destruct (tg' =? tg); reflexivity.
  - destruct (Z.eqb_spec (u_tg_id r) tg) as [E|N]; simpl.
    + rewrite Hf, E.
      destruct (Z.eqb_spec tg' tg) as [E'|N'].
      * subst tg'. rewrite Z.eqb_refl. reflexivity.
      * rewrite (proj2 (Z.eqb_neq tg tg')) by congruence. exact IH.
    + destruct (Z.eqb_spec tg' tg) as [E'|N'].
      * subst tg'. rewrite (proj2 (Z.eqb_neq _ _) N). exact IH.
      * destruct (u_tg_id r =? tg'); [reflexivity | exact IH].
Qed.

Lemma find_user_app (tg : Z) (rows : list user_row) (x : user_row) :
  find_user tg (rows ++ [x]) =
  match find_user tg rows with
  | Some r => Some r
  | None => if u_tg_id x =? tg then Some x else None
  end.
Proof.
  unfold find_user. induction rows as [|r rows IH]; simpl.
  - reflexivity.
  - destruct (u_tg_id r =? tg); [reflexivity | exact IH].
Qed.

Lemma find_user_tg (tg : Z) (rows : list user_row) (r : user_row) :
  find_user tg rows = Some r -> u_tg_id r = tg /\ In r rows.
Proof.
  unfold find_user. intros H. apply find_some in H.
  destruct H as [Hin Heq]. apply Z.eqb_eq in Heq. auto.
Qed.

(** The profile of any identity after an upsert of identity [tg]. *)
Lemma find_user_upsert (ts tg tg' : Z) (premium : bool)
    (source : option string) (passed : bool) (d : database) :
  find_user tg' (users (sql_upsert_user ts tg premium source passed d)) =
  if tg' =? tg then
    let excluded :=
      {| u_id := users_seq d; u_tg_id := tg; u_is_premium := premium;
         u_source := source; u_flyer_passed := passed;
         u_created_at := ts; u_last_seen_at := ts |} in
    Some match find_user tg (users d) with
         | Some r => on_conflict_update ts r excluded
         | None => excluded
         end
  else find_user tg' (users d).
Proof.
  unfold sql_upsert_user; simpl.
  rewrite existsb_find_user.
  destruct (find_user tg (users d)) as [r|] eqn:F.
  - rewrite find_user_map by reflexivity. rewrite F. reflexivity.
  - rewrite find_user_app; simpl.
    destruct (Z.eqb_spec tg' tg) as [E|N].
    + subst tg'. rewrite F, Z.eqb_refl. reflexivity.
    + rewrite (proj2 (Z.eqb_neq tg tg')) by congruence.
      destruct (find_user tg' (users d)); reflexivity.
Qed.

Lemma count_rows_map (tg tg' : Z) (f : user_row -> user_row)
    (rows : list user_row) :
  (forall r, u_tg_id (f r) = u_tg_id r) ->
  count_rows tg' (map (fun r => if u_tg_id r =? tg then f r else r) rows) =
  count_rows tg' rows.
Proof.
  intros Hf. unfold count_rows.
  induction rows as [|r rows IH]; simpl; [reflexivity|].
  replace (u_tg_id (if u_tg_id r =? tg then f r else r)) with (u_tg_id r)
    by (destruct (u_tg_id r =? tg); [rewrite Hf|]; reflexivity).
  destruct (u_tg_id r =? tg'); simpl; rewrite IH; reflexivity.
Qed.

Lemma count_rows_app (tg : Z) (rows : list user_row) (x : user_row) :
  count_rows tg (rows ++ [x]) =
  (count_rows tg rows + if (u_tg_id x =? tg)%Z then 1 else 0)%nat.
Proof.
  unfold count_rows. rewrite filter_app, length_app. simpl.
  destruct (u_tg_id x =? tg); reflexivity.
Qed.

Lemma count_rows_find (tg : Z) (rows : list user_row) :
  match find_user tg rows with
  | Some _ => (1 <= count_rows tg rows)%nat
  | None => count_rows tg rows = 0%nat
  end.
Proof.
  unfold find_user, count_rows.
  induction rows as [|r rows IH]; simpl; [reflexivity|].
  destruct (u_tg_id r =? tg); simpl; [lia | exact IH].
Qed.

(** The number of rows of any identity after an upsert of identity [tg]. *)
Lemma count_rows_upsert (ts tg tg' : Z) (premium : bool)
    (source : option string) (passed : bool) (d : database) :
  count_rows tg' (users (sql_upsert_user ts tg premium source passed d)) =
  if tg' =? tg then Nat.max 1 (count_rows tg (users d))
  else count_rows tg' (users d).
Proof.
  unfold sql_upsert_user; cbn [users].
  rewrite existsb_find_user.
  pose proof (count_rows_find tg (users d)) as C.
  destruct (find_user tg (users d)) as [r|]; cbv beta iota in C.
  - rewrite count_rows_map by reflexivity.
    destruct (Z.eqb_spec tg' tg) as [E|N]; [subst tg'; lia | reflexivity].
  - rewrite count_rows_app; cbn [u_tg_id].
    destruct (Z.eqb_spec tg' tg) as [E|N].
    + subst tg'. rewrite Z.eqb_refl, C. reflexivity.
    + rewrite (proj2 (Z.eqb_neq tg tg')) by congruence. lia.
Qed.

(** ** Running the storage operations *)

Lemma int8_param_ok (n : Z) : in_int8 n = true -> int8_param n = inr n.
Proof. intros H. unfold int8_param; simpl. rewrite H. reflexivity. Qed.

Lemma int8_param_err (n : Z) :
  in_int8 n = false -> int8_param n = inl DataError.
Proof. intros H. unfold int8_param; simpl. rewrite H. reflexivity. Qed.

Lemma upsert_user_ok (u : user) (source : option string) (passed : bool)
    (w : world) :
  in_int8 (user_id u) = true ->
  upsert_user u source passed w =
  (inr tt,
   {| db := sql_upsert_user (now (statements w)) (user_id u)
              (truthy (user_is_premium u)) source passed (db w);
      statements := S (statements w);
      flyer_calls := flyer_calls w;
      outbox := outbox w |}).
Proof.
  intros H. unfold upsert_user, bind, lift, execute.
  rewrite (int8_param_ok _ H). reflexivity.
Qed.

Lemma upsert_user_err (u : user) (source : option string) (passed : bool)
    (w : world) :
  in_int8 (user_id u) = false ->
  upsert_user u source passed w = (inl DataError, w).
Proof.
  intros H. unfold upsert_user, bind, lift.
  rewrite (int8_param_err _ H). reflexivity.
Qed.

Lemma log_event_ok (u : user) (event : string) (source : option string)
    (w : world) :
  in_int8 (user_id u) = true ->
  log_event u event source w =
  (inr tt,
   {| db := sql_insert_log (now (statements w)) (user_id u) event source
              (truthy (user_is_premium u)) (db w);
      statements := S (statements w);
      flyer_calls := flyer_calls w;
      outbox := outbox w |}).
Proof.
  intros H. unfold log_event, bind, lift, execute.
  rewrite (int8_param_ok _ H). reflexivity.
Qed.

Lemma log_event_err (u : user) (event : string) (source : option string)
    (w : world) :
  in_int8 (user_id u) = false ->
  log_event u event source w = (inl DataError, w).
Proof.
  intros H. unfold log_event, bind, lift.
  rewrite (int8_param_err _ H). reflexivity.
Qed.

(** The profile of any identity after [upsert_user], raised or not. *)
Lemma profile_upsert_user (tg : Z) (u : user) (source : option string)
    (passed : bool) (w : world) :
  profile tg (snd (upsert_user u source passed w)) =
  if in_int8 (user_id u) && (tg =? user_id u) then
    let ts := now (statements w) in
    let excluded :=
      {| u_id := users_seq (db w); u_tg_id := user_id u;
         u_is_premium := truthy (user_is_premium u);
         u_source := source; u_flyer_passed := passed;
         u_created_at := ts; u_last_seen_at := ts |} in
    Some match profile (user_id u) w with
         | Some r => on_conflict_update ts r excluded
         | None => excluded
         end
  else profile tg w.
Proof.
  destruct (in_int8 (user_id u)) eqn:R; simpl.
  - rewrite (upsert_user_ok _ _ _ _ R). unfold profile; simpl.
    apply find_user_upsert.
  - rewrite (upsert_user_err _ _ _ _ R). reflexivity.
Qed.

(** ** The access gate *)

Lemma ensure_access_ok (m : message) (source : option string) (w : world)
    (ok : bool) :
  in_int8 (user_id (from_user m)) = true ->
  flyer (length (flyer_calls w)) (check_call (from_user m)) = inr ok ->
  ensure_access m source w =
  (inr ok,
   {| db :=
        sql_upsert_user (now (S (statements w))) (user_id (from_user m))
          (truthy (user_is_premium (from_user m))) source ok
          (sql_insert_log (now (statements w)) (user_id (from_user m))
             "check_access" source
             (truthy (user_is_premium (from_user m))) (db w));
      statements := S (S (statements w));
      flyer_calls := flyer_calls w ++ [check_call (from_user m)];
      outbox := outbox w |}).
Proof.
  intros R F. unfold ensure_access, bind.
  rewrite (log_event_ok _ _ _ _ R).
  unfold check_flyer; simpl. rewrite F.
  rewrite upsert_user_ok by exact R. reflexivity.
Qed.

(** A passed profile stays passed through an upsert of any identity. *)
Lemma upsert_keeps_passed (w : world) (tg : Z) (r : user_row) (u : user)
    (source : option string) (passed : bool) :
  profile tg w = Some r -> u_flyer_passed r = true ->
  exists r', profile tg (snd (upsert_user u source passed w)) = Some r'
             /\ u_flyer_passed r' = true.
Proof.
  intros P T. rewrite profile_upsert_user.
  destruct (in_int8 (user_id u) && (tg =? user_id u)) eqn:E.
  - apply andb_prop in E. destruct E as [_ E]. apply Z.eqb_eq in E.
    subst tg. cbv zeta. rewrite P. eexists. split; [reflexivity|].
    simpl. rewrite T. reflexivity.
  - exists r. auto.
Qed.

(** A stored source stays as it is through an upsert of any identity. *)
Lemma upsert_keeps_source (w : world) (tg : Z) (r : user_row) (s : string)
    (u : user) (source : option string) (passed : bool) :
  profile tg w = Some r -> u_source r = Some s ->
  exists r', profile tg (snd (upsert_user u source passed w)) = Some r'
             /\ u_source r' = Some s.
Proof.
  intros P T. rewrite profile_upsert_user.
  destruct (in_int8 (user_id u) && (tg =? user_id u)) eqn:E.
  - apply andb_prop in E. destruct E as [_ E]. apply Z.eqb_eq in E.
    subst tg. cbv zeta. rewrite P. eexists. split; [reflexivity|].
    simpl. rewrite T. reflexivity.
  - exists r. auto.
Qed.

(** A gate that returns has logged, called the check and upserted. *)
Lemma ensure_access_inv (m : message) (source : option string) (w : world)
    (ok : bool) :
  fst (ensure_access m source w) = inr ok ->
  in_int8 (user_id (from_user m)) = true
  /\ flyer (length (flyer_calls w)) (check_call (from_user m)) = inr ok.
Proof.
  destruct (in_int8 (user_id (from_user m))) eqn:R.
  - destruct (flyer (length (flyer_calls w)) (check_call (from_user m)))
      as [e|b] eqn:F.
    + unfold ensure_access, bind. rewrite (log_event_ok _ _ _ _ R).
      unfold check_flyer; cbn [flyer_calls]. rewrite F. discriminate.
    + rewrite (ensure_access_ok m source w b R F). cbn [fst].
      intros H. injection H as <-. auto.
  - unfold ensure_access, bind. rewrite (log_event_err _ _ _ _ R).
    discriminate.
Qed.

(** C1. The passed-check flag is sticky: a profile whose stored
    [flyer_passed] is true keeps it true through an upsert carrying any
    check result; and when the gate is called twice for a user and
    returns true the first time and false the second, the stored
    [flyer_passed] is true afterwards. *)
Theorem flyer_passed_sticky :
  (forall (w : world) (tg : Z) (r : user_row) (u : user)
          (source : option string) (passed : bool),
      profile tg w = Some r ->
      u_flyer_passed r = true ->
      exists r',
        profile tg (snd (upsert_user u source passed w)) = Some r'
        /\ u_flyer_passed r' = true)
  /\
  (forall (w : world) (m : message) (source1 source2 : option string),
      let run1 := ensure_access m source1 w in
      let run2 := ensure_access m source2 (snd run1) in
      fst run1 = inr true ->
      fst run2 = inr false ->
      exists r,
        profile (user_id (from_user m)) (snd run2) = Some r
        /\ u_flyer_passed r = true).
Proof.
  split.
  - intros. eapply upsert_keeps_passed; eassumption.
  - intros w m s1 s2 run1 run2 G1 G2. subst run1 run2.
    destruct (ensure_access_inv _ _ _ _ G1) as [R F1].
    destruct (ensure_access_inv _ _ _ _ G2) as [_ F2].
    revert F2 G2.
    rewrite (ensure_access_ok m s1 w true R F1). cbn [fst snd].
    intros F2 _.
    rewrite (ensure_access_ok m s2 _ false R F2). cbn [snd].
    unfold profile. cbn [db].
    set (d1 := sql_upsert_user _ _ _ s1 true _).
    assert (H1 : exists r1, find_user (user_id (from_user m)) (users d1)
                            = Some r1 /\ u_flyer_passed r1 = true).
    { subst d1. rewrite find_user_upsert, Z.eqb_refl. cbv zeta.
      eexists. split; [reflexivity|].
      destruct (find_user _ _); simpl; [apply orb_true_r | reflexivity]. }
    destruct H1 as [r1 [P1 T1]].
    rewrite find_user_upsert, Z.eqb_refl. cbv zeta.
    cbn [users sql_insert_log]. rewrite P1.
    eexists. split; [reflexivity|]. simpl. rewrite T1. reflexivity.
Qed.

(** C2. The stored source is first-non-null-write-wins: a profile whose
    source is set keeps it through any upsert; and for an identity with no
    stored source yet, an upsert with source [a] followed by one with
    source [b] leaves the stored source equal to [a]. *)
Theorem source_first_write_wins :
  (forall (w : world) (tg : Z) (r : user_row) (s : string) (u : user)
          (source : option string) (passed : bool),
      profile tg w = Some r ->
      u_source r = Some s ->
      exists r',
        profile tg (snd (upsert_user u source passed w)) = Some r'
        /\ u_source r' = Some s)
  /\
  (forall (w : world) (u : user) (a b : string) (passed1 passed2 : bool),
      in_int8 (user_id u) = true ->
      (forall r, profile (user_id u) w = Some r -> u_source r = None) ->
      let w1 := snd (upsert_user u (Some a) passed1 w) in
      let w2 := snd (upsert_user u (Some b) passed2 w1) in
      exists r,
        profile (user_id u) w2 = Some r /\ u_source r = Some a).
Proof.
  split.
  - intros. eapply upsert_keeps_source; eassumption.
  - intros w u a b p1 p2 R N w1 w2.
    assert (H1 : exists r1, profile (user_id u) w1 = Some r1
                            /\ u_source r1 = Some a).
    { subst w1. rewrite profile_upsert_user, R, Z.eqb_refl. simpl.
      eexists. split; [reflexivity|].
      destruct (profile (user_id u) w) as [r|] eqn:P; simpl.
      - rewrite (N r eq_refl). reflexivity.
      - reflexivity. }
    destruct H1 as [r1 [P1 S1]].
    subst w2. eapply upsert_keeps_source; eassumption.
Qed.

(** ** The [/start] handler *)

(** C3. The source parsed from the command text: no trailing token gives
    [None] and a token after one space is passed through, but the two
    splits disagree on other texts: after two spaces the source is the
    empty text, neither [None] nor the token, and after a tab the
    subscript raises. *)
Theorem start_source_two_splits :
  start_source "/start" = inr None
  /\ start_source "/start " = inr None
  /\ start_source "/start promo1" = inr (Some "promo1")
  /\ start_source "/start  promo1" = inr (Some "")
  /\ start_source ("/start" ++ String "009" "promo1") = inl IndexError.
Proof. repeat split; reflexivity. Qed.

(** C4. [check_flyer] makes exactly one call to the check service and
    returns its answer: the call carries the premium key for a premium
    user and the regular key otherwise, the user's identity, and the
    user's language code, or ["ru"] when the user has none; the store and
    the messages sent are left alone. *)
Theorem check_flyer_routing (u : user) (w : world) :
  exists c : flyer_call,
    flyer_calls (snd (check_flyer u w)) = flyer_calls w ++ [c]
    /\ fst (check_flyer u w) = flyer (length (flyer_calls w)) c
    /\ call_user_id c = user_id u
    /\ (user_is_premium u = Some true ->
        call_key c = FLYER_KEY_PREMIUM cfg)
    /\ (user_is_premium u <> Some true ->
        call_key c = FLYER_KEY_REGULAR cfg)
    /\ (forall l, user_language_code u = Some l -> l <> "" ->
        call_language_code c = l)
    /\ (user_language_code u = None -> call_language_code c = "ru")
    /\ db (snd (check_flyer u w)) = db w
    /\ outbox (snd (check_flyer u w)) = outbox w.
Proof.
  exists (check_call u). unfold check_flyer, check_call, flyer_client_key.
  cbn [fst snd flyer_calls call_key call_user_id call_language_code
       db outbox].
  repeat split.
  - intros P. rewrite P. reflexivity.
  - intros P. destruct (user_is_premium u) as [[|]|]; simpl; congruence.
  - intros l L N. rewrite L. destruct l; [congruence | reflexivity].
  - intros L. rewrite L. reflexivity.
Qed.

Lemma start_cmd_ok (m : message) (w : world) (source : option string)
    (ok : bool) :
  start_source (text m) = inr source ->
  in_int8 (user_id (from_user m)) = true ->
  flyer (length (flyer_calls w)) (check_call (from_user m)) = inr ok ->
  start_cmd m w =
  (inr tt,
   let u := from_user m in
   let premium := truthy (user_is_premium u) in
   {| db :=
        sql_upsert_user (now (S (S (statements w)))) (user_id u)
          premium source ok
          (sql_insert_log (now (S (statements w))) (user_id u)
             "check_access" source premium
             (sql_insert_log (now (statements w)) (user_id u)
                "start" source premium (db w)));
      statements := S (S (S (statements w)));
      flyer_calls := flyer_calls w ++ [check_call u];
      outbox :=
        if ok
        then outbox w ++ [{| sent_chat := chat_id m;
                             sent_text := welcome_text premium |}]
        else outbox w |}).
Proof.
  intros P R F. unfold start_cmd, bind at 1 2, lift. rewrite P.
  rewrite (log_event_ok _ _ _ _ R).
  unfold bind. rewrite ensure_access_ok with (ok := ok) by assumption.
  destruct ok; reflexivity.
Qed.

Lemma welcome_text_shows_premium : welcome_text true <> welcome_text false.
Proof. discriminate. Qed.

(** A [/start] that reached the check service parsed its text and
    logged its first event. *)
Lemma start_cmd_inv (m : message) (w : world) (c : flyer_call) :
  flyer_calls (snd (start_cmd m w)) = flyer_calls w ++ [c] ->
  c = check_call (from_user m)
  /\ in_int8 (user_id (from_user m)) = true
  /\ exists source, start_source (text m) = inr source.
Proof.
  assert (no_call : flyer_calls w = flyer_calls w ++ [c] -> False).
  { intros H. apply (f_equal (@length _)) in H.
    rewrite length_app in H. simpl in H. lia. }
  unfold start_cmd, bind at 1 2, lift.
  destruct (start_source (text m)) as [e|source];
    [intros H; destruct (no_call H)|].
  destruct (in_int8 (user_id (from_user m))) eqn:R.
  - rewrite (log_event_ok _ _ _ _ R).
    unfold bind, ensure_access, bind. rewrite log_event_ok by exact R.
    unfold check_flyer. cbn [flyer_calls].
    intros H.
    assert (E : flyer_calls w ++ [check_call (from_user m)]
                = flyer_calls w ++ [c]).
    { rewrite <- H.
      destruct (flyer (length (flyer_calls w))
                  (check_call (from_user m))) as [e|[|]];
        [reflexivity| |]; rewrite upsert_user_ok by exact R; reflexivity. }
    apply app_inv_head in E. injection E as <-.
    split; [reflexivity|]. split; [reflexivity|]. eauto.
  - rewrite (log_event_err _ _ _ _ R).
    intros H. destruct (no_call H).
Qed.

(** C5. A [/start] whose handling calls the check service: when the
    check denies, the handler returns without sending a message, has
    logged exactly two events, ["start"] then ["check_access"], and
    has upserted the profile with [flyer_passed] false: a new profile is
    stored not passed, an existing one keeps its flag, and the identity
    has one row where it had none.  When the check allows, the handler
    sends one welcome message, which shows the premium flag, after the
    same two events, and the stored flag is true. *)
Theorem start_cmd_gate (m : message) (w : world) (c : flyer_call) :
  let u := from_user m in
  let w' := snd (start_cmd m w) in
  flyer_calls w' = flyer_calls w ++ [c] ->
  (flyer (length (flyer_calls w)) c = inr false ->
   fst (start_cmd m w) = inr tt
   /\ outbox w' = outbox w
   /\ (exists source e1 e2,
        start_source (text m) = inr source
        /\ traffic_log (db w') = traffic_log (db w) ++ [e1; e2]
        /\ l_event e1 = "start" /\ l_event e2 = "check_access"
        /\ l_tg_id e1 = user_id u /\ l_tg_id e2 = user_id u
        /\ l_source e1 = source /\ l_source e2 = source
        /\ (profile (user_id u) w = None ->
            exists r', profile (user_id u) w' = Some r'
                       /\ u_source r' = source))
   /\ (exists r',
        profile (user_id u) w' = Some r'
        /\ count_rows (user_id u) (users (db w')) =
           Nat.max 1 (count_rows (user_id u) (users (db w)))
        /\ (profile (user_id u) w = None -> u_flyer_passed r' = false)
        /\ (forall r, profile (user_id u) w = Some r ->
            u_flyer_passed r' = u_flyer_passed r)))
  /\
  (flyer (length (flyer_calls w)) c = inr true ->
   fst (start_cmd m w) = inr tt
   /\ outbox w' =
      outbox w ++
      [{| sent_chat := chat_id m;
          sent_text := welcome_text (truthy (user_is_premium u)) |}]
   /\ welcome_text true <> welcome_text false
   /\ (exists e1 e2,
        traffic_log (db w') = traffic_log (db w) ++ [e1; e2]
        /\ l_event e1 = "start" /\ l_event e2 = "check_access")
   /\ (exists r',
        profile (user_id u) w' = Some r' /\ u_flyer_passed r' = true)).
Proof.
  intros u w' C. subst u w'.
  destruct (start_cmd_inv m w c C) as [-> [R [source P]]].
  split; intros F.
  - rewrite (start_cmd_ok m w source false P R F). cbn [fst snd].
    cbv zeta. cbn [outbox db].
    split; [reflexivity|]. split; [reflexivity|]. split.
    + exists source. do 2 eexists. split; [exact P|]. split.
      * cbn [traffic_log sql_upsert_user sql_insert_log].
        rewrite <- app_assoc. reflexivity.
      * cbn [l_event l_tg_id l_source]. repeat split.
        intros N. unfold profile in *. cbn [db].
        rewrite find_user_upsert, Z.eqb_refl. cbv zeta.
        cbn [users sql_insert_log]. rewrite N. eauto.
    + unfold profile. cbn [db]. rewrite find_user_upsert, Z.eqb_refl.
      cbv zeta. cbn [users sql_insert_log].
      eexists. split; [reflexivity|]. split; [|split].
      * rewrite count_rows_upsert, Z.eqb_refl. reflexivity.
      * intros N. rewrite N. reflexivity.
      * intros r Pr. rewrite Pr. simpl. apply orb_false_r.
  - rewrite (start_cmd_ok m w source true P R F). cbn [fst snd].
    cbv zeta. cbn [outbox db].
    split; [reflexivity|]. split; [reflexivity|].
    split; [exact welcome_text_shows_premium|]. split.
    + do 2 eexists. split.
      * cbn [traffic_log sql_upsert_user sql_insert_log].
        rewrite <- app_assoc. reflexivity.
      * simpl. split; reflexivity.
    + unfold profile. cbn [db]. rewrite find_user_upsert, Z.eqb_refl.
      cbv zeta. cbn [users sql_insert_log].
      eexists. split; [reflexivity|].
      destruct (find_user _ _); simpl; [apply orb_true_r | reflexivity].
Qed.

(** ** The webhook *)

Lemma flyer_webhook_sub (req : request) (w : world)
    (payload data uid : pyval) (tg : option Z) :
  json_body req = inr payload ->
  py_get payload "type" PNone = inr (PStr "sub_completed") ->
  py_get payload "data" (PDict []) = inr data ->
  py_get data "user_id" PNone = inr uid ->
  int8_encode uid = inr tg ->
  flyer_webhook req w =
  (inr status_true,
   {| db := sql_update_passed tg (db w);
      statements := S (statements w);
      flyer_calls := flyer_calls w;
      outbox := outbox w |}).
Proof.
  intros B T D U E. unfold flyer_webhook, bind, lift.
  rewrite B, T, D. simpl. rewrite U, E. reflexivity.
Qed.

Lemma flyer_webhook_other (req : request) (w : world)
    (payload event_type : pyval) :
  json_body req = inr payload ->
  py_get payload "type" PNone = inr event_type ->
  py_eq_str event_type "sub_completed" = false ->
  flyer_webhook req w = (inr status_true, w).
Proof.
  intros B T N. unfold flyer_webhook, bind, lift. rewrite B, T.
  destruct payload; try discriminate T. simpl py_get.
  destruct (members_get "data" members); rewrite N; reflexivity.
Qed.

(** Whatever the request, the handler leaves the world as it was or runs
    the one [UPDATE]. *)
Lemma flyer_webhook_world (req : request) (w : world) :
  snd (flyer_webhook req w) = w
  \/ exists tg,
       snd (flyer_webhook req w) =
       {| db := sql_update_passed tg (db w);
          statements := S (statements w);
          flyer_calls := flyer_calls w;
          outbox := outbox w |}.
Proof.
  unfold flyer_webhook, bind, lift.
  destruct (json_body req) as [e|payload]; [left; reflexivity|].
  destruct (py_get payload "type" PNone) as [e|event_type];
    [left; reflexivity|].
  destruct (py_get payload "data" (PDict [])) as [e|data];
    [left; reflexivity|].
  destruct (py_eq_str event_type "sub_completed"); [|left; reflexivity].
  destruct (py_get data "user_id" PNone) as [e|uid]; [left; reflexivity|].
  destruct (int8_encode uid) as [e|tg]; [left; reflexivity|].
  right. exists tg. reflexivity.
Qed.

Lemma update_passed_absent (tg : Z) (rows : list user_row) :
  find_user tg rows = None ->
  map (fun r => if u_tg_id r =? tg then set_flyer_passed r else r) rows
  = rows.
Proof.
  unfold find_user. induction rows as [|r rows IH]; simpl; [reflexivity|].
  destruct (u_tg_id r =? tg); [discriminate|].
  intros F. rewrite (IH F). reflexivity.
Qed.

Lemma set_flyer_passed_idem (r : user_row) :
  set_flyer_passed (set_flyer_passed r) = set_flyer_passed r.
Proof. reflexivity. Qed.

Lemma sql_update_passed_idem (tg : option Z) (d : database) :
  sql_update_passed tg (sql_update_passed tg d) = sql_update_passed tg d.
Proof.
  destruct tg as [t|]; [|reflexivity]. unfold sql_update_passed; simpl.
  f_equal. rewrite map_map. apply map_ext. intros r.
  destruct (u_tg_id r =? t) eqn:E; simpl; rewrite E; reflexivity.
Qed.

(** C6. A webhook whose body is an object with [type] equal to
    ["sub_completed"] and whose [data.user_id] is the identity of a stored
    profile sets that profile's [flyer_passed] to true, whatever it was,
    and answers [{"status": true}]; delivering it again changes nothing in
    the store.  A body whose [type] is anything else leaves the world as
    it is and gets the same answer. *)
Theorem webhook_sub_completed :
  (forall (req : request) (w : world) (payload data : pyval) (n : Z)
          (r : user_row),
      json_body req = inr payload ->
      py_get payload "type" PNone = inr (PStr "sub_completed") ->
      py_get payload "data" (PDict []) = inr data ->
      py_get data "user_id" PNone = inr (PInt n) ->
      in_int8 n = true ->
      profile n w = Some r ->
      let w' := snd (flyer_webhook req w) in
      fst (flyer_webhook req w) = inr status_true
      /\ (exists r', profile n w' = Some r'
                     /\ u_flyer_passed r' = true
                     /\ r' = set_flyer_passed r)
      /\ fst (flyer_webhook req w') = inr status_true
      /\ db (snd (flyer_webhook req w')) = db w')
  /\
  (forall (req : request) (w : world) (payload event_type : pyval),
      json_body req = inr payload ->
      py_get payload "type" PNone = inr event_type ->
      py_eq_str event_type "sub_completed" = false ->
      flyer_webhook req w = (inr status_true, w)).
Proof.
  split.
  - intros req w payload data n r B T D U R P w'. subst w'.
    assert (E : int8_encode (PInt n) = inr (Some n))
      by (simpl; rewrite R; reflexivity).
    rewrite !(flyer_webhook_sub req _ payload data (PInt n) (Some n))
      by assumption.
    cbn [fst snd db]. split; [reflexivity|]. split; [|split].
    + exists (set_flyer_passed r). unfold profile in *. cbn [db].
      unfold sql_update_passed; cbn [users].
      rewrite find_user_map by reflexivity.
      rewrite Z.eqb_refl, P. auto.
    + reflexivity.
    + apply sql_update_passed_idem.
  - intros. eapply flyer_webhook_other; eassumption.
Qed.

(** C7. A ["sub_completed"] webhook whose payload is an object, whose
    [data] is an object (or is missing, which reads as the empty object),
    and whose [user_id] is missing, is null, or is an integer of the key
    column's range that matches no profile, returns [{"status": true}]
    without raising and leaves the store unchanged. *)
Theorem webhook_unknown_user (req : request) (w : world)
    (payload : pyval) (members : list (string * pyval)) :
  json_body req = inr payload ->
  py_get payload "type" PNone = inr (PStr "sub_completed") ->
  py_get payload "data" (PDict []) = inr (PDict members) ->
  (members_get "user_id" members = None
   \/ members_get "user_id" members = Some PNone
   \/ exists n, members_get "user_id" members = Some (PInt n)
                /\ in_int8 n = true
                /\ profile n w = None) ->
  fst (flyer_webhook req w) = inr status_true
  /\ db (snd (flyer_webhook req w)) = db w.
Proof.
  intros B T D [A | [A | [n [U [R P]]]]].
  - rewrite (flyer_webhook_sub req w payload (PDict members) PNone None B T D).
    + split; reflexivity.
    + simpl. rewrite A. reflexivity.
    + reflexivity.
  - rewrite (flyer_webhook_sub req w payload (PDict members) PNone None B T D).
    + split; reflexivity.
    + simpl. rewrite A. reflexivity.
    + reflexivity.
  - rewrite (flyer_webhook_sub req w payload (PDict members) (PInt n)
               (Some n) B T D).
    + cbn [fst snd db]. split; [reflexivity|].
      unfold sql_update_passed. unfold profile in P.
      rewrite (update_passed_absent n _ P). destruct (db w); reflexivity.
    + simpl. rewrite U. reflexivity.
    + simpl. rewrite R. reflexivity.
Qed.

(** C10. Whatever the request, the webhook leaves the event log, both
    sequences, the messages sent and the calls to the check service as
    they were, keeps the number and order of the profiles, and changes
    no field of a profile other than [flyer_passed], which can only
    become true; [last_seen_at] in particular is kept.  When
    [data.user_id] is the integer [n], every profile of another identity
    is unchanged. *)
Theorem webhook_frame (req : request) (w : world) :
  let w' := snd (flyer_webhook req w) in
  traffic_log (db w') = traffic_log (db w)
  /\ traffic_log_seq (db w') = traffic_log_seq (db w)
  /\ users_seq (db w') = users_seq (db w)
  /\ outbox w' = outbox w
  /\ flyer_calls w' = flyer_calls w
  /\ length (users (db w')) = length (users (db w))
  /\ (forall i r,
        nth_error (users (db w)) i = Some r ->
        exists r',
          nth_error (users (db w')) i = Some r'
          /\ u_id r' = u_id r
          /\ u_tg_id r' = u_tg_id r
          /\ u_is_premium r' = u_is_premium r
          /\ u_source r' = u_source r
          /\ u_created_at r' = u_created_at r
          /\ u_last_seen_at r' = u_last_seen_at r
          /\ (u_flyer_passed r' = u_flyer_passed r
              \/ u_flyer_passed r' = true))
  /\ (forall payload data n,
        json_body req = inr payload ->
        py_get payload "data" (PDict []) = inr data ->
        py_get data "user_id" PNone = inr (PInt n) ->
        forall i r,
          nth_error (users (db w)) i = Some r ->
          u_tg_id r <> n ->
          nth_error (users (db w')) i = Some r).
Proof.
  intros w'. subst w'.
  assert (first7 :
    forall tg,
      let d' := sql_update_passed tg (db w) in
      traffic_log d' = traffic_log (db w)
      /\ traffic_log_seq d' = traffic_log_seq (db w)
      /\ users_seq d' = users_seq (db w)
      /\ length (users d') = length (users (db w))
      /\ (forall i r,
            nth_error (users (db w)) i = Some r ->
            exists r',
              nth_error (users d') i = Some r'
              /\ u_id r' = u_id r
              /\ u_tg_id r' = u_tg_id r
              /\ u_is_premium r' = u_is_premium r
              /\ u_source r' = u_source r
              /\ u_created_at r' = u_created_at r
              /\ u_last_seen_at r' = u_last_seen_at r
              /\ (u_flyer_passed r' = u_flyer_passed r
                  \/ u_flyer_passed r' = true))).
  { intros [t|]; cbv zeta; unfold sql_update_passed; cbn [users traffic_log
      traffic_log_seq users_seq].
    - repeat split; [apply length_map|].
      intros i r N. rewrite nth_error_map, N. simpl.
      destruct (u_tg_id r =? t); eexists; split; try reflexivity;
        simpl; repeat split; auto.
    - repeat split. intros i r N. exists r. repeat split; auto. }
  assert (others :
    forall payload data n,
      json_body req = inr payload ->
      py_get payload "data" (PDict []) = inr data ->
      py_get data "user_id" PNone = inr (PInt n) ->
      forall i r,
        nth_error (users (db w)) i = Some r ->
        u_tg_id r <> n ->
        nth_error (users (db (snd (flyer_webhook req w)))) i = Some r).
  { intros payload data n B D U i r N Ne.
    unfold flyer_webhook, bind, lift. rewrite B.
    destruct (py_get payload "type" PNone) as [e|event_type]; [exact N|].
    rewrite D.
    destruct (py_eq_str event_type "sub_completed"); [|exact N].
    rewrite U. cbn [int8_encode].
    destruct (in_int8 n); [|exact N].
    unfold execute, ret. cbn [snd db sql_update_passed users].
    rewrite nth_error_map, N. simpl.
    rewrite (proj2 (Z.eqb_neq _ _) Ne). reflexivity. }
  destruct (flyer_webhook_world req w) as [E | [tg E]].
  - repeat split; try (rewrite E; reflexivity); [|exact others].
    rewrite E. intros i r N. exists r. repeat split; auto.
  - destruct (first7 tg) as [H1 [H2 [H3 [H4 H5]]]].
    split; [rewrite E; exact H1|]. split; [rewrite E; exact H2|].
    split; [rewrite E; exact H3|]. split; [rewrite E; reflexivity|].
    split; [rewrite E; reflexivity|]. split; [rewrite E; exact H4|].
    split; [rewrite E; exact H5 | exact others].
Qed.

(** ** One row per identity *)

Section Keeps.

Variable P : database -> Prop.

Lemma keeps_ret {A : Type} (a : A) : keeps_db P (ret a).
Proof. intros w H. exact H. Qed.

Lemma keeps_lift {A : Type} (r : exn + A) : keeps_db P (lift r).
Proof. intros w H. exact H. Qed.

Lemma keeps_bind {A B : Type} (m : M A) (k : A -> M B) :
  keeps_db P m -> (forall a, keeps_db P (k a)) -> keeps_db P (bind m k).
Proof.
  intros Hm Hk w H. unfold bind. specialize (Hm w H).
  destruct (m w) as [[e|a] w1]; simpl in *.
  - exact Hm.
  - apply Hk. exact Hm.
Qed.

Lemma keeps_execute (stmt : Z -> database -> database) :
  (forall ts d, P d -> P (stmt ts d)) -> keeps_db P (execute stmt).
Proof. intros Hs w H. simpl. apply Hs. exact H. Qed.

Lemma keeps_check_flyer (u : user) : keeps_db P (check_flyer u).
Proof. intros w H. exact H. Qed.

Lemma keeps_answer (m : message) (body : string) :
  keeps_db P (answer m body).
Proof. intros w H. exact H. Qed.

End Keeps.

Ltac keeps_step :=
  first
    [ apply keeps_bind; [|intros ?]
    | apply keeps_lift
    | apply keeps_ret
    | apply keeps_check_flyer
    | apply keeps_answer
    | apply keeps_execute; intros ? ? ?
    | match goal with
      | |- keeps_db _ (if ?b then _ else _) => destruct b
      end ].

Lemma one_row_upsert (ts tg : Z) (premium : bool) (source : option string)
    (passed : bool) (d : database) :
  one_row_per_identity d ->
  one_row_per_identity (sql_upsert_user ts tg premium source passed d).
Proof.
  unfold one_row_per_identity, sql_upsert_user; cbn [users]. intros H.
  destruct (existsb (fun r => u_tg_id r =? tg) (users d)) eqn:E.
  - rewrite map_map.
    erewrite map_ext; [exact H|].
    intros r. destruct (u_tg_id r =? tg); reflexivity.
  - rewrite map_app. cbn [map u_tg_id].
    apply NoDup_app; [exact H | repeat constructor; intros [] |].
    intros x Hx [<-|[]].
    apply in_map_iff in Hx. destruct Hx as [r [Hr Hin]].
    assert (T : existsb (fun r => u_tg_id r =? tg) (users d) = true).
    { apply existsb_exists. exists r. split; [exact Hin|].
      apply Z.eqb_eq. exact Hr. }
    congruence.
Qed.

Lemma one_row_insert_log (ts tg : Z) (event : string)
    (source : option string) (premium : bool) (d : database) :
  one_row_per_identity d ->
  one_row_per_identity (sql_insert_log ts tg event source premium d).
Proof. intros H. exact H. Qed.

Lemma one_row_update_passed (tg : option Z) (d : database) :
  one_row_per_identity d -> one_row_per_identity (sql_update_passed tg d).
Proof.
  destruct tg as [t|]; [|auto].
  unfold one_row_per_identity, sql_update_passed; cbn [users]. intros H.
  rewrite map_map. erewrite map_ext; [exact H|].
  intros r. destruct (u_tg_id r =? t); reflexivity.
Qed.

Lemma upsert_user_keeps_one_row (u : user) (source : option string)
    (passed : bool) :
  keeps_db one_row_per_identity (upsert_user u source passed).
Proof. unfold upsert_user. repeat keeps_step. now apply one_row_upsert. Qed.

Lemma log_event_keeps_one_row (u : user) (event : string)
    (source : option string) :
  keeps_db one_row_per_identity (log_event u event source).
Proof.
  unfold log_event. repeat keeps_step. now apply one_row_insert_log.
Qed.

Lemma ensure_access_keeps_one_row (m : message) (source : option string) :
  keeps_db one_row_per_identity (ensure_access m source).
Proof.
  unfold ensure_access. cbv zeta.
  apply keeps_bind; [apply log_event_keeps_one_row | intros _].
  apply keeps_bind; [apply keeps_check_flyer | intros ok].
  apply keeps_bind; [apply upsert_user_keeps_one_row | intros _].
  apply keeps_ret.
Qed.

Lemma perform_keeps_one_row (o : operation) (w : world) :
  one_row_per_identity (db w) -> one_row_per_identity (db (perform o w)).
Proof.
  intros H. destruct o; cbn [perform].
  - revert w H. change (keeps_db one_row_per_identity init_db).
    unfold init_db. repeat keeps_step; assumption.
  - now apply upsert_user_keeps_one_row.
  - now apply log_event_keeps_one_row.
  - exact H.
  - now apply ensure_access_keeps_one_row.
  - revert w H.
    change (keeps_db one_row_per_identity (ensure_access_cb call)).
    unfold ensure_access_cb. cbv zeta.
    apply keeps_bind; [apply keeps_check_flyer | intros ok].
    apply keeps_bind; [apply upsert_user_keeps_one_row | intros _].
    apply keeps_ret.
  - revert w H. change (keeps_db one_row_per_identity (start_cmd m)).
    unfold start_cmd.
    apply keeps_bind; [apply keeps_lift | intros source].
    apply keeps_bind; [apply log_event_keeps_one_row | intros _].
    apply keeps_bind; [apply ensure_access_keeps_one_row | intros ok].
    destruct ok; [apply keeps_answer | apply keeps_ret].
  - revert w H. change (keeps_db one_row_per_identity (menu_cmd m)).
    unfold menu_cmd.
    apply keeps_bind; [apply log_event_keeps_one_row | intros _].
    apply keeps_bind; [apply ensure_access_keeps_one_row | intros ok].
    destruct ok; [apply keeps_answer | apply keeps_ret].
  - revert w H. change (keeps_db one_row_per_identity (flyer_webhook req)).
    unfold flyer_webhook. repeat keeps_step.
    now apply one_row_update_passed.
Qed.

Lemma length_upsert (ts tg : Z) (premium : bool) (source : option string)
    (passed : bool) (d : database) :
  length (users (sql_upsert_user ts tg premium source passed d)) =
  match find_user tg (users d) with
  | Some _ => length (users d)
  | None => S (length (users d))
  end.
Proof.
  unfold sql_upsert_user; cbn [users]. rewrite existsb_find_user.
  destruct (find_user tg (users d)).
  - apply length_map.
  - rewrite length_app, Nat.add_comm. reflexivity.
Qed.

(** C9. The store holds at most one profile per identity: the empty
    store does, every operation keeps it so whether it returns or raises,
    hence so does every world reached from the initial one; an upsert of
    an identity with no profile adds exactly one row, and a further
    upsert of that identity adds none and leaves it with one row. *)
Theorem one_profile_per_identity :
  one_row_per_identity empty_db
  /\ (forall (o : operation) (w : world),
        one_row_per_identity (db w) ->
        one_row_per_identity (db (perform o w)))
  /\ (forall ops : list operation,
        one_row_per_identity (db (perform_all ops initial_world)))
  /\ (forall (w : world) (u : user) (source : option string)
             (passed : bool),
        in_int8 (user_id u) = true ->
        profile (user_id u) w = None ->
        let w1 := snd (upsert_user u source passed w) in
        length (users (db w1)) = S (length (users (db w)))
        /\ count_rows (user_id u) (users (db w1)) = 1%nat
        /\ forall (source' : option string) (passed' : bool),
             let w2 := snd (upsert_user u source' passed' w1) in
             length (users (db w2)) = length (users (db w1))
             /\ count_rows (user_id u) (users (db w2)) = 1%nat).
Proof.
  split; [constructor|]. split; [exact perform_keeps_one_row|]. split.
  - intros ops. unfold perform_all.
    assert (G : forall w, one_row_per_identity (db w) ->
              one_row_per_identity
                (db (fold_left (fun w' o => perform o w') ops w))).
    { induction ops as [|o ops IH]; intros w H; simpl; [exact H|].
      apply IH. apply perform_keeps_one_row. exact H. }
    apply G. constructor.
  - intros w u source passed R N w1. subst w1.
    rewrite (upsert_user_ok _ _ _ _ R). cbn [snd db].
    unfold profile in N.
    pose proof (count_rows_find (user_id u) (users (db w))) as C.
    rewrite N in C.
    assert (C1 : count_rows (user_id u)
                   (users (sql_upsert_user (now (statements w)) (user_id u)
                      (truthy (user_is_premium u)) source passed (db w)))
                 = 1%nat).
    { rewrite count_rows_upsert, Z.eqb_refl, C. reflexivity. }
    split; [rewrite length_upsert, N; reflexivity|].
    split; [exact C1|].
    intros source' passed'.
    rewrite (upsert_user_ok _ _ _ _ R). cbn [snd db statements].
    split.
    + rewrite length_upsert, find_user_upsert, Z.eqb_refl. reflexivity.
    + rewrite count_rows_upsert, Z.eqb_refl, C1. reflexivity.
Qed.

(** ** What every operation leaves in place *)

Section Moves.

Variable R : database -> database -> Prop.
Hypothesis R_refl : forall d, R d d.
Hypothesis R_trans : forall d1 d2 d3, R d1 d2 -> R d2 d3 -> R d1 d3.

Lemma moves_ret {A : Type} (a : A) : moves_db R (ret a).
Proof using R_refl. intros w. apply R_refl. Qed.

Lemma moves_lift {A : Type} (r : exn + A) : moves_db R (lift r).
Proof using R_refl. intros w. apply R_refl. Qed.

Lemma moves_check_flyer (u : user) : moves_db R (check_flyer u).
Proof using R_refl. intros w. apply R_refl. Qed.

Lemma moves_answer (m : message) (body : string) : moves_db R (answer m body).
Proof using R_refl. intros w. apply R_refl. Qed.

Lemma moves_bind {A B : Type} (m : M A) (k : A -> M B) :
  moves_db R m -> (forall a, moves_db R (k a)) -> moves_db R (bind m k).
Proof using R_trans.
  intros Hm Hk w. unfold bind. specialize (Hm w).
  destruct (m w) as [[e|a] w1]; simpl in *.
  - exact Hm.
  - eapply R_trans; [exact Hm | apply Hk].
Qed.

Lemma moves_execute (stmt : Z -> database -> database) :
  (forall ts d, R d (stmt ts d)) -> moves_db R (execute stmt).
Proof using Type. intros Hs w. simpl. apply Hs. Qed.

(** A reflexive and transitive relation that the three statements respect
    is respected by every operation. *)
Lemma moves_perform :
  (forall ts tg premium source passed d,
      R d (sql_upsert_user ts tg premium source passed d)) ->
  (forall ts tg event source premium d,
      R d (sql_insert_log ts tg event source premium d)) ->
  (forall tg d, R d (sql_update_passed tg d)) ->
  forall o w, R (db w) (db (perform o w)).
Proof using R_refl R_trans.
  intros Hu Hl Hp.
  assert (U : forall u s p, moves_db R (upsert_user u s p)).
  { intros. unfold upsert_user.
    apply moves_bind; [apply moves_lift | intros tg].
    apply moves_execute. intros. apply Hu. }
  assert (L : forall u ev s, moves_db R (log_event u ev s)).
  { intros. unfold log_event.
    apply moves_bind; [apply moves_lift | intros tg].
    apply moves_execute. intros. apply Hl. }
  assert (G : forall m s, moves_db R (ensure_access m s)).
  { intros. unfold ensure_access. cbv zeta.
    apply moves_bind; [apply L | intros _].
    apply moves_bind; [apply moves_check_flyer | intros ok].
    apply moves_bind; [apply U | intros _]. apply moves_ret. }
  intros o. destruct o; cbn [perform].
  - change (moves_db R init_db). unfold init_db.
    apply moves_bind; [|intros _]; apply moves_execute; intros; apply R_refl.
  - apply U.
  - apply L.
  - apply moves_check_flyer.
  - apply G.
  - change (moves_db R (ensure_access_cb call)). unfold ensure_access_cb.
    cbv zeta.
    apply moves_bind; [apply moves_check_flyer | intros ok].
    apply moves_bind; [apply U | intros _]. apply moves_ret.
  - change (moves_db R (start_cmd m)). unfold start_cmd.
    apply moves_bind; [apply moves_lift | intros source].
    apply moves_bind; [apply L | intros _].
    apply moves_bind; [apply G | intros ok].
    destruct ok; [apply moves_answer | apply moves_ret].
  - change (moves_db R (menu_cmd m)). unfold menu_cmd.
    apply moves_bind; [apply L | intros _].
    apply moves_bind; [apply G | intros ok].
    destruct ok; [apply moves_answer | apply moves_ret].
  - change (moves_db R (flyer_webhook req)). unfold flyer_webhook.
    apply moves_bind; [apply moves_lift | intros payload].
    apply moves_bind; [apply moves_lift | intros event_type].
    apply moves_bind; [apply moves_lift | intros data].
    apply moves_bind; [|intros _; apply moves_ret].
    destruct (py_eq_str event_type "sub_completed"); [|apply moves_ret].
    apply moves_bind; [apply moves_lift | intros uid].
    apply moves_bind; [apply moves_lift | intros tg].
    apply moves_execute. intros. apply Hp.
Qed.

Lemma moves_perform_all :
  (forall o w, R (db w) (db (perform o w))) ->
  forall ops w, R (db w) (db (perform_all ops w)).
Proof using R_refl R_trans.
  intros H ops. unfold perform_all.
  induction ops as [|o ops IH]; intros w; simpl; [apply R_refl|].
  eapply R_trans; [apply H | apply IH].
Qed.

End Moves.

Lemma log_extends_refl (d : database) : log_extends d d.
Proof. exists []. symmetry. apply app_nil_r. Qed.

Lemma log_extends_trans (d1 d2 d3 : database) :
  log_extends d1 d2 -> log_extends d2 d3 -> log_extends d1 d3.
Proof.
  intros [a E1] [b E2]. exists (a ++ b). rewrite E2, E1.
  symmetry. apply app_assoc.
Qed.

(** X1. The event log is append-only: whatever sequence of operations
    runs, returning or raising, the log afterwards is the log before
    followed by the events added; no event is removed or rewritten. *)
Theorem traffic_log_append_only (ops : list operation) (w : world) :
  exists added,
    traffic_log (db (perform_all ops w)) = traffic_log (db w) ++ added.
Proof.
  apply (moves_perform_all log_extends log_extends_refl log_extends_trans).
  apply (moves_perform log_extends log_extends_refl log_extends_trans).
  - intros. exists []. symmetry. apply app_nil_r.
  - intros. eexists. reflexivity.
  - intros [t|] d; exists []; symmetry; apply app_nil_r.
Qed.

Lemma profiles_persist_refl (d : database) : profiles_persist d d.
Proof. intros tg r F. exists r. repeat split; auto. Qed.

Lemma profiles_persist_trans (d1 d2 d3 : database) :
  profiles_persist d1 d2 -> profiles_persist d2 d3 -> profiles_persist d1 d3.
Proof.
  intros H12 H23 tg r F.
  destruct (H12 tg r F) as [r2 [F2 [I2 [C2 [P2 S2]]]]].
  destruct (H23 tg r2 F2) as [r3 [F3 [I3 [C3 [P3 S3]]]]].
  exists r3. split; [exact F3|]. split; [congruence|].
  split; [congruence|]. split; [auto|]. intros s Hs. auto.
Qed.

Lemma profiles_persist_upsert (ts tg : Z) (premium : bool)
    (source : option string) (passed : bool) (d : database) :
  profiles_persist d (sql_upsert_user ts tg premium source passed d).
Proof.
  intros tg' r F. rewrite find_user_upsert.
  destruct (Z.eqb_spec tg' tg) as [E|N].
  - subst tg'. cbv zeta. rewrite F. eexists. split; [reflexivity|].
    simpl. repeat split.
    + intros T. rewrite T. reflexivity.
    + intros s Hs. rewrite Hs. reflexivity.
  - exists r. repeat split; auto.
Qed.

Lemma profiles_persist_update (tg : option Z) (d : database) :
  profiles_persist d (sql_update_passed tg d).
Proof.
  destruct tg as [t|]; [|apply profiles_persist_refl].
  intros tg' r F. unfold sql_update_passed; cbn [users].
  rewrite find_user_map by reflexivity.
  destruct (Z.eqb_spec tg' t) as [E|N].
  - subst tg'. rewrite F. exists (set_flyer_passed r). simpl.
    repeat split; auto.
  - exists r. repeat split; auto.
Qed.

(** X2. No operation deletes or demotes a profile: after any sequence of
    operations a stored profile is still stored under the same row key and
    creation time, is still passed if it was passed, and still has the
    source it had if it had one.  In particular a flag set by the webhook
    is not reset by a later denied check. *)
Theorem profiles_never_regress (ops : list operation) (w : world) (tg : Z)
    (r : user_row) :
  profile tg w = Some r ->
  exists r',
    profile tg (perform_all ops w) = Some r'
    /\ u_id r' = u_id r
    /\ u_created_at r' = u_created_at r
    /\ (u_flyer_passed r = true -> u_flyer_passed r' = true)
    /\ (forall s, u_source r = Some s -> u_source r' = Some s).
Proof.
  unfold profile.
  apply (moves_perform_all profiles_persist profiles_persist_refl
           profiles_persist_trans).
  apply (moves_perform profiles_persist profiles_persist_refl
           profiles_persist_trans).
  - intros. apply profiles_persist_upsert.
  - intros ts tg' event source premium d. exact (profiles_persist_refl d).
  - intros. apply profiles_persist_update.
Qed.

(** An invariant that the three statements keep is kept by every
    operation. *)
Lemma keeps_perform_all (P : database -> Prop) :
  (forall ts tg premium source passed d,
      P d -> P (sql_upsert_user ts tg premium source passed d)) ->
  (forall ts tg event source premium d,
      P d -> P (sql_insert_log ts tg event source premium d)) ->
  (forall tg d, P d -> P (sql_update_passed tg d)) ->
  forall ops w, P (db w) -> P (db (perform_all ops w)).
Proof.
  intros Hu Hl Hp.
  apply (moves_perform_all (fun d d' => P d -> P d')); [auto | auto |].
  apply (moves_perform (fun d d' => P d -> P d')); auto.
Qed.

Lemma NoDup_snoc_fresh (ids : list Z) (next : Z) :
  NoDup ids -> Forall (fun i => i < next) ids -> NoDup (ids ++ [next]).
Proof.
  intros N F. apply NoDup_app; [exact N | repeat constructor; intros [] |].
  intros x Hx [<-|[]].
  rewrite Forall_forall in F. specialize (F _ Hx). lia.
Qed.

Lemma keys_fresh_upsert (ts tg : Z) (premium : bool) (source : option string)
    (passed : bool) (d : database) :
  keys_fresh d -> keys_fresh (sql_upsert_user ts tg premium source passed d).
Proof.
  intros [N [F [NL FL]]]. unfold keys_fresh, sql_upsert_user.
  cbn [users users_seq traffic_log traffic_log_seq].
  split; [|split; [|split; assumption]].
  - destruct (existsb _ _).
    + rewrite map_map. erewrite map_ext; [exact N|].
      intros r. destruct (u_tg_id r =? tg); reflexivity.
    + rewrite map_app. cbn [map u_id]. apply NoDup_snoc_fresh; [exact N|].
      apply Forall_map. exact F.
  - destruct (existsb _ _).
    + apply Forall_map. eapply Forall_impl; [|exact F].
      intros r Hr. cbv beta in *.
      destruct (u_tg_id r =? tg); cbn [u_id on_conflict_update]; lia.
    + apply Forall_app. split.
      * eapply Forall_impl; [|exact F]. intros r Hr. cbv beta in *. lia.
      * repeat constructor. simpl. lia.
Qed.

Lemma keys_fresh_insert_log (ts tg : Z) (event : string)
    (source : option string) (premium : bool) (d : database) :
  keys_fresh d -> keys_fresh (sql_insert_log ts tg event source premium d).
Proof.
  intros [N [F [NL FL]]]. unfold keys_fresh, sql_insert_log.
  cbn [users users_seq traffic_log traffic_log_seq].
  split; [exact N|]. split; [exact F|]. split.
  - rewrite map_app. cbn [map l_id]. apply NoDup_snoc_fresh; [exact NL|].
    apply Forall_map. exact FL.
  - apply Forall_app. split.
    + eapply Forall_impl; [|exact FL]. intros e He. cbv beta in *. lia.
    + repeat constructor. simpl. lia.
Qed.

Lemma keys_fresh_update (tg : option Z) (d : database) :
  keys_fresh d -> keys_fresh (sql_update_passed tg d).
Proof.
  destruct tg as [t|]; [|auto].
  intros [N [F [NL FL]]]. unfold keys_fresh, sql_update_passed.
  cbn [users users_seq traffic_log traffic_log_seq].
  split; [|split; [|split; assumption]].
  - rewrite map_map. erewrite map_ext; [exact N|].
    intros r. destruct (u_tg_id r =? t); reflexivity.
  - apply Forall_map. eapply Forall_impl; [|exact F].
    intros r Hr. cbv beta in *.
    destruct (u_tg_id r =? t); cbn [u_id set_flyer_passed]; lia.
Qed.

(** X3. The primary keys stay unique: if the row keys of both tables are
    distinct and below their sequences, they are so after any sequence of
    operations, although an upsert that hits an existing profile uses up a
    key of the sequence. *)
Theorem primary_keys_stay_unique (ops : list operation) (w : world) :
  keys_fresh (db w) -> keys_fresh (db (perform_all ops w)).
Proof.
  apply keeps_perform_all.
  - intros. now apply keys_fresh_upsert.
  - intros. now apply keys_fresh_insert_log.
  - intros. now apply keys_fresh_update.
Qed.

(** X4. Every stored event carries a premium snapshot: the column accepts
    [NULL], but if no event of the log has a null [is_premium], none has
    after any sequence of operations. *)
Theorem events_carry_premium (ops : list operation) (w : world) :
  Forall (fun e => l_is_premium e <> None) (traffic_log (db w)) ->
  Forall (fun e => l_is_premium e <> None)
    (traffic_log (db (perform_all ops w))).
Proof.
  apply (keeps_perform_all
           (fun d => Forall (fun e => l_is_premium e <> None)
                       (traffic_log d))).
  - intros. assumption.
  - intros ts tg event source premium d H. cbn [traffic_log sql_insert_log].
    apply Forall_app. split; [exact H|]. repeat constructor. discriminate.
  - intros [t|] d H; exact H.
Qed.

Lemma log_event_keeps_names (u : user) (event : string)
    (source : option string) :
  In event handler_events ->
  keeps_db (fun d => Forall (fun e => In (l_event e) handler_events)
                       (traffic_log d))
    (log_event u event source).
Proof.
  intros I. unfold log_event.
  apply keeps_bind; [apply keeps_lift | intros tg].
  apply keeps_execute. intros ts d H. cbn [traffic_log sql_insert_log].
  apply Forall_app. split; [exact H|].
  apply Forall_cons; [exact I | apply Forall_nil].
Qed.

Lemma ensure_access_keeps_names (m : message) (source : option string) :
  keeps_db (fun d => Forall (fun e => In (l_event e) handler_events)
                       (traffic_log d))
    (ensure_access m source).
Proof.
  unfold ensure_access. cbv zeta.
  apply keeps_bind;
    [apply log_event_keeps_names; simpl; auto | intros _].
  apply keeps_bind; [apply keeps_check_flyer | intros ok].
  apply keeps_bind; [|intros _; apply keeps_ret].
  unfold upsert_user.
  apply keeps_bind; [apply keeps_lift | intros tg].
  apply keeps_execute. intros ts d H. exact H.
Qed.

(** X5. The registered handlers log no other events than ["start"],
    ["menu"] and ["check_access"]: a log that holds only these names holds
    only these after any sequence of [/start], [/menu] and webhook
    deliveries. *)
Theorem handlers_log_three_events (ops : list operation) (w : world) :
  forallb registered ops = true ->
  Forall (fun e => In (l_event e) handler_events) (traffic_log (db w)) ->
  Forall (fun e => In (l_event e) handler_events)
    (traffic_log (db (perform_all ops w))).
Proof.
  unfold perform_all. revert w.
  induction ops as [|o ops IH]; intros w Hr H; simpl; [exact H|].
  simpl in Hr. apply andb_prop in Hr. destruct Hr as [Ho Hr].
  apply IH; [exact Hr|]. clear IH Hr.
  destruct o; try discriminate Ho; cbn [perform]; revert w H.
  - change (keeps_db (fun d => Forall (fun e => In (l_event e) handler_events)
                                 (traffic_log d)) (start_cmd m)).
    unfold start_cmd.
    apply keeps_bind; [apply keeps_lift | intros source].
    apply keeps_bind;
      [apply log_event_keeps_names; simpl; auto | intros _].
    apply keeps_bind; [apply ensure_access_keeps_names | intros ok].
    destruct ok; [apply keeps_answer | apply keeps_ret].
  - change (keeps_db (fun d => Forall (fun e => In (l_event e) handler_events)
                                 (traffic_log d)) (menu_cmd m)).
    unfold menu_cmd.
    apply keeps_bind;
      [apply log_event_keeps_names; simpl; auto | intros _].
    apply keeps_bind; [apply ensure_access_keeps_names | intros ok].
    destruct ok; [apply keeps_answer | apply keeps_ret].
  - change (keeps_db (fun d => Forall (fun e => In (l_event e) handler_events)
                                 (traffic_log d)) (flyer_webhook req)).
    unfold flyer_webhook. repeat keeps_step.
    match goal with
    | |- context [sql_update_passed ?t _] => destruct t
    end; assumption.
Qed.

(** ** The gate, the other handlers and failures *)

Lemma ensure_access_fail (m : message) (source : option string) (w : world)
    (e : exn) :
  in_int8 (user_id (from_user m)) = true ->
  flyer (length (flyer_calls w)) (check_call (from_user m)) = inl e ->
  ensure_access m source w =
  (inl e,
   {| db := sql_insert_log (now (statements w)) (user_id (from_user m))
              "check_access" source
              (truthy (user_is_premium (from_user m))) (db w);
      statements := S (statements w);
      flyer_calls := flyer_calls w ++ [check_call (from_user m)];
      outbox := outbox w |}).
Proof.
  intros R F. unfold ensure_access, bind.
  rewrite (log_event_ok _ _ _ _ R).
  unfold check_flyer; simpl. rewrite F. reflexivity.
Qed.

Lemma ensure_access_range (m : message) (source : option string) (w : world) :
  in_int8 (user_id (from_user m)) = false ->
  ensure_access m source w = (inl DataError, w).
Proof.
  intros R. unfold ensure_access, bind.
  rewrite (log_event_err _ _ _ _ R). reflexivity.
Qed.

Lemma ensure_access_result (m : message) (source : option string)
    (w : world) :
  fst (ensure_access m source w) =
  if in_int8 (user_id (from_user m))
  then flyer (length (flyer_calls w)) (check_call (from_user m))
  else inl DataError.
Proof.
  destruct (in_int8 (user_id (from_user m))) eqn:R.
  - destruct (flyer (length (flyer_calls w)) (check_call (from_user m)))
      as [e|ok] eqn:F.
    + rewrite (ensure_access_fail m source w e R F). reflexivity.
    + rewrite (ensure_access_ok m source w ok R F). reflexivity.
  - rewrite (ensure_access_range m source w R). reflexivity.
Qed.

(** X6. The gate never consults the store: its answer is the same in any
    two worlds in which the check service has been called equally often,
    whatever profiles they hold.  In particular a webhook delivered
    before the gate runs does not change the gate's answer. *)
Theorem gate_ignores_store (m : message) (source : option string) :
  (forall w1 w2,
      length (flyer_calls w1) = length (flyer_calls w2) ->
      fst (ensure_access m source w1) = fst (ensure_access m source w2))
  /\
  (forall req w,
      fst (ensure_access m source (snd (flyer_webhook req w)))
      = fst (ensure_access m source w)).
Proof.
  split.
  - intros w1 w2 L. rewrite !ensure_access_result, L. reflexivity.
  - intros req w. rewrite !ensure_access_result.
    destruct (flyer_webhook_world req w) as [E | [tg E]]; rewrite E;
      reflexivity.
Qed.

Lemma start_cmd_check_fail (m : message) (w : world)
    (source : option string) (e : exn) :
  start_source (text m) = inr source ->
  in_int8 (user_id (from_user m)) = true ->
  flyer (length (flyer_calls w)) (check_call (from_user m)) = inl e ->
  start_cmd m w =
  (inl e,
   let u := from_user m in
   let premium := truthy (user_is_premium u) in
   {| db := sql_insert_log (now (S (statements w))) (user_id u)
              "check_access" source premium
              (sql_insert_log (now (statements w)) (user_id u)
                 "start" source premium (db w));
      statements := S (S (statements w));
      flyer_calls := flyer_calls w ++ [check_call u];
      outbox := outbox w |}).
Proof.
  intros P R F. unfold start_cmd, bind at 1 2, lift. rewrite P.
  rewrite (log_event_ok _ _ _ _ R). unfold bind.
  rewrite ensure_access_fail with (e := e) by assumption. reflexivity.
Qed.

(** X7. A failure of the check service propagates: when the call raises,
    the gate raises the same exception after having logged its
    ["check_access"] event, and neither upserts the profile nor sends a
    message; [/start] then raises it too, with its ["start"] event logged
    as well. *)
Theorem check_failure_propagates (m : message) (w : world) (e : exn) :
  in_int8 (user_id (from_user m)) = true ->
  flyer (length (flyer_calls w)) (check_call (from_user m)) = inl e ->
  (forall source,
      let w' := snd (ensure_access m source w) in
      fst (ensure_access m source w) = inl e
      /\ users (db w') = users (db w)
      /\ outbox w' = outbox w
      /\ exists ev,
           traffic_log (db w') = traffic_log (db w) ++ [ev]
           /\ l_event ev = "check_access" /\ l_source ev = source)
  /\
  (forall source,
      start_source (text m) = inr source ->
      let w' := snd (start_cmd m w) in
      fst (start_cmd m w) = inl e
      /\ users (db w') = users (db w)
      /\ outbox w' = outbox w
      /\ exists e1 e2,
           traffic_log (db w') = traffic_log (db w) ++ [e1; e2]
           /\ l_event e1 = "start" /\ l_event e2 = "check_access").
Proof.
  intros R F. split.
  - intros source w'. subst w'.
    rewrite (ensure_access_fail m source w e R F). cbn [fst snd db outbox].
    repeat split. eexists. split; [reflexivity|]. split; reflexivity.
  - intros source P w'. subst w'.
    rewrite (start_cmd_check_fail m w source e P R F). cbv zeta.
    cbn [fst snd db outbox users sql_insert_log traffic_log].
    repeat split. do 2 eexists. split.
    + rewrite <- app_assoc. reflexivity.
    + split; reflexivity.
Qed.

Lemma start_cmd_fail (m : message) (w : world) :
  (forall source, start_source (text m) = inr source ->
    in_int8 (user_id (from_user m)) = true ->
    forall ok, flyer (length (flyer_calls w)) (check_call (from_user m))
               <> inr ok) ->
  outbox (snd (start_cmd m w)) = outbox w.
Proof.
  intros H. unfold start_cmd, bind at 1 2, lift.
  destruct (start_source (text m)) as [e|source] eqn:P; [reflexivity|].
  destruct (in_int8 (user_id (from_user m))) eqn:R.
  - rewrite (log_event_ok _ _ _ _ R). unfold bind.
    destruct (flyer (length (flyer_calls w)) (check_call (from_user m)))
      as [e|ok] eqn:F.
    + rewrite ensure_access_fail with (e := e) by assumption. reflexivity.
    + destruct (H source eq_refl eq_refl ok eq_refl).
  - rewrite (log_event_err _ _ _ _ R). reflexivity.
Qed.

Lemma menu_cmd_ok (m : message) (w : world) (ok : bool) :
  in_int8 (user_id (from_user m)) = true ->
  flyer (length (flyer_calls w)) (check_call (from_user m)) = inr ok ->
  menu_cmd m w =
  (inr tt,
   let u := from_user m in
   let premium := truthy (user_is_premium u) in
   {| db :=
        sql_upsert_user (now (S (S (statements w)))) (user_id u)
          premium None ok
          (sql_insert_log (now (S (statements w))) (user_id u)
             "check_access" None premium
             (sql_insert_log (now (statements w)) (user_id u)
                "menu" None premium (db w)));
      statements := S (S (S (statements w)));
      flyer_calls := flyer_calls w ++ [check_call u];
      outbox :=
        if ok
        then outbox w ++ [{| sent_chat := chat_id m;
                             sent_text := menu_text |}]
        else outbox w |}).
Proof.
  intros R F. unfold menu_cmd, bind at 1.
  rewrite (log_event_ok _ _ _ _ R).
  unfold bind. rewrite ensure_access_ok with (ok := ok) by assumption.
  destruct ok; reflexivity.
Qed.

Lemma menu_cmd_silent (m : message) (w : world) :
  (in_int8 (user_id (from_user m)) = true ->
   forall ok, flyer (length (flyer_calls w)) (check_call (from_user m))
              <> inr ok) ->
  outbox (snd (menu_cmd m w)) = outbox w.
Proof.
  intros H. unfold menu_cmd, bind at 1.
  destruct (in_int8 (user_id (from_user m))) eqn:R.
  - rewrite (log_event_ok _ _ _ _ R). unfold bind.
    destruct (flyer (length (flyer_calls w)) (check_call (from_user m)))
      as [e|ok] eqn:F.
    + rewrite ensure_access_fail with (e := e) by assumption. reflexivity.
    + destruct (H eq_refl ok eq_refl).
  - rewrite (log_event_err _ _ _ _ R). reflexivity.
Qed.

(** X8. [/menu] for a user whose identity fits the key column and whose
    check returns [ok]: the handler returns, logs exactly the events
    ["menu"] then ["check_access"], both with a null source, sends the
    placeholder message if and only if the check allowed, and upserts the
    profile with no source, so that an existing profile keeps its source
    and a new one has none. *)
Theorem menu_cmd_gate (m : message) (w : world) (ok : bool) :
  in_int8 (user_id (from_user m)) = true ->
  flyer (length (flyer_calls w)) (check_call (from_user m)) = inr ok ->
  let u := from_user m in
  let w' := snd (menu_cmd m w) in
  fst (menu_cmd m w) = inr tt
  /\ outbox w' =
     (if ok
      then outbox w ++ [{| sent_chat := chat_id m; sent_text := menu_text |}]
      else outbox w)
  /\ (exists e1 e2,
        traffic_log (db w') = traffic_log (db w) ++ [e1; e2]
        /\ l_event e1 = "menu" /\ l_event e2 = "check_access"
        /\ l_tg_id e1 = user_id u /\ l_tg_id e2 = user_id u
        /\ l_source e1 = None /\ l_source e2 = None)
  /\ (exists r',
        profile (user_id u) w' = Some r'
        /\ u_is_premium r' = truthy (user_is_premium u)
        /\ (profile (user_id u) w = None ->
            u_source r' = None /\ u_flyer_passed r' = ok)
        /\ (forall r, profile (user_id u) w = Some r ->
            u_source r' = u_source r
            /\ u_flyer_passed r' = u_flyer_passed r || ok)).
Proof.
  intros R F u w'. subst u w'.
  rewrite (menu_cmd_ok m w ok R F). cbn [fst snd]. cbv zeta.
  cbn [outbox db].
  split; [reflexivity|]. split; [reflexivity|]. split.
  - do 2 eexists. split.
    + cbn [traffic_log sql_upsert_user sql_insert_log].
      rewrite <- app_assoc. reflexivity.
    + cbn [l_event l_tg_id l_source]. repeat split.
  - unfold profile. cbn [db]. rewrite find_user_upsert, Z.eqb_refl.
    cbv zeta. cbn [users sql_insert_log].
    eexists. split; [reflexivity|]. split; [|split].
    + destruct (find_user _ _); reflexivity.
    + intros N. rewrite N. split; reflexivity.
    + intros r Pr. rewrite Pr. simpl.
      split; [|reflexivity]. destruct (u_source r); reflexivity.
Qed.

(** X9. A handler answers only when the check allowed: after [/start] or
    [/menu] the messages sent are those sent before, or those followed by
    one message to the chat of the command, and then the check service
    answered true to this very call; every other operation sends
    nothing. *)
Theorem replies_only_when_allowed (o : operation) (w : world) :
  outbox (perform o w) = outbox w
  \/ exists m body,
       (o = OpStart m \/ o = OpMenu m)
       /\ outbox (perform o w) =
          outbox w ++ [{| sent_chat := chat_id m; sent_text := body |}]
       /\ flyer (length (flyer_calls w)) (check_call (from_user m))
          = inr true.
Proof.
  destruct o; cbn [perform]; try (left; reflexivity).
  - left. unfold upsert_user, bind, lift.
    destruct (int8_param (user_id u)); reflexivity.
  - left. unfold log_event, bind, lift.
    destruct (int8_param (user_id u)); reflexivity.
  - left. destruct (in_int8 (user_id (from_user m))) eqn:R.
    + destruct (flyer (length (flyer_calls w)) (check_call (from_user m)))
        as [e|ok] eqn:F.
      * rewrite (ensure_access_fail m source w e R F). reflexivity.
      * rewrite (ensure_access_ok m source w ok R F). reflexivity.
    + rewrite (ensure_access_range m source w R). reflexivity.
  - left. unfold ensure_access_cb, bind, check_flyer. cbv zeta.
    destruct (flyer _ _) as [e|ok]; [reflexivity|].
    unfold upsert_user, bind, lift.
    destruct (int8_param _); reflexivity.
  - destruct (start_source (text m)) as [e|source] eqn:P.
    + left. apply start_cmd_fail. intros s Ps. congruence.
    + destruct (in_int8 (user_id (from_user m))) eqn:R.
      * destruct (flyer (length (flyer_calls w)) (check_call (from_user m)))
          as [e|[|]] eqn:F.
        -- left. apply start_cmd_fail. intros s _ _ ok. congruence.
        -- right. exists m. eexists. split; [left; reflexivity|].
           rewrite (start_cmd_ok m w source true P R F).
           split; [reflexivity | first [exact F | reflexivity]].
        -- left. rewrite (start_cmd_ok m w source false P R F). reflexivity.
      * left. apply start_cmd_fail. intros s _ R'. congruence.
  - destruct (in_int8 (user_id (from_user m))) eqn:R.
    + destruct (flyer (length (flyer_calls w)) (check_call (from_user m)))
        as [e|[|]] eqn:F.
      * left. apply menu_cmd_silent. intros _ ok. congruence.
      * right. exists m. eexists. split; [right; reflexivity|].
        rewrite (menu_cmd_ok m w true R F).
        split; [reflexivity | first [exact F | reflexivity]].
      * left. rewrite (menu_cmd_ok m w false R F). reflexivity.
    + left. apply menu_cmd_silent. intros R'. congruence.
  - left. destruct (flyer_webhook_world req w) as [E | [tg E]]; rewrite E;
      reflexivity.
Qed.

Lemma ensure_access_cb_ok (call : callback_query) (w : world) (ok : bool) :
  in_int8 (user_id (cq_from_user call)) = true ->
  flyer (length (flyer_calls w)) (check_call (cq_from_user call)) = inr ok ->
  ensure_access_cb call w =
  (inr ok,
   let u := cq_from_user call in
   {| db := sql_upsert_user (now (statements w)) (user_id u)
              (truthy (user_is_premium u)) None ok (db w);
      statements := S (statements w);
      flyer_calls := flyer_calls w ++ [check_call u];
      outbox := outbox w |}).
Proof.
  intros R F. unfold ensure_access_cb, bind, check_flyer. cbv zeta.
  rewrite F. rewrite upsert_user_ok by exact R. reflexivity.
Qed.

(** X10. The gate of callback queries logs nothing and records no source:
    it never adds an event, whether it returns or raises; when the user's
    identity fits the key column and the check returns [ok], it returns
    [ok] after one call to the check service and an upsert with no source,
    so that an existing profile keeps its source and a new one has
    none. *)
Theorem ensure_access_cb_quiet (call : callback_query) (w : world) :
  traffic_log (db (snd (ensure_access_cb call w))) = traffic_log (db w)
  /\ outbox (snd (ensure_access_cb call w)) = outbox w
  /\ (forall ok,
        in_int8 (user_id (cq_from_user call)) = true ->
        flyer (length (flyer_calls w)) (check_call (cq_from_user call))
          = inr ok ->
        let u := cq_from_user call in
        let w' := snd (ensure_access_cb call w) in
        fst (ensure_access_cb call w) = inr ok
        /\ flyer_calls w' = flyer_calls w ++ [check_call u]
        /\ exists r',
             profile (user_id u) w' = Some r'
             /\ (profile (user_id u) w = None ->
                 u_source r' = None /\ u_flyer_passed r' = ok)
             /\ (forall r, profile (user_id u) w = Some r ->
                 u_source r' = u_source r
                 /\ u_flyer_passed r' = u_flyer_passed r || ok)).
Proof.
  assert (Q : forall w0 : world,
             traffic_log (db (snd (ensure_access_cb call w0)))
             = traffic_log (db w0)
             /\ outbox (snd (ensure_access_cb call w0)) = outbox w0).
  { intros w0. unfold ensure_access_cb, bind, check_flyer. cbv zeta.
    destruct (flyer _ _) as [e|ok]; [split; reflexivity|].
    unfold upsert_user, bind, lift.
    destruct (int8_param _); split; reflexivity. }
  split; [apply Q|]. split; [apply Q|].
  intros ok R F u w'. subst u w'.
  rewrite (ensure_access_cb_ok call w ok R F). cbv zeta.
  cbn [fst snd flyer_calls].
  split; [reflexivity|]. split; [reflexivity|].
  unfold profile. cbn [db]. rewrite find_user_upsert, Z.eqb_refl.
  cbv zeta. eexists. split; [reflexivity|]. split.
  - intros N. rewrite N. split; reflexivity.
  - intros r Pr. rewrite Pr. simpl.
    split; [|reflexivity]. destruct (u_source r); reflexivity.
Qed.

(** X11. The webhook fails atomically: when it raises, the world is
    exactly as before; an exception raised by [request.json()] is the one
    the handler raises, and a decoded payload that is not an object makes
    it raise [AttributeError]; when it returns, it returns
    [{"status": true}]. *)
Theorem webhook_fails_atomically (req : request) (w : world) :
  (forall e,
      fst (flyer_webhook req w) = inl e -> snd (flyer_webhook req w) = w)
  /\ (forall v, fst (flyer_webhook req w) = inr v -> v = status_true)
  /\ (forall e,
        json_body req = inl e -> fst (flyer_webhook req w) = inl e)
  /\ (forall payload,
        json_body req = inr payload ->
        (forall members, payload <> PDict members) ->
        fst (flyer_webhook req w) = inl AttributeError).
Proof.
  split; [|split; [|split]].
  - intros e. unfold flyer_webhook, bind, lift.
    destruct (json_body req) as [e0|payload]; [reflexivity|].
    destruct (py_get payload "type" PNone) as [e0|event_type];
      [reflexivity|].
    destruct (py_get payload "data" (PDict [])) as [e0|data];
      [reflexivity|].
    destruct (py_eq_str event_type "sub_completed"); [|discriminate].
    destruct (py_get data "user_id" PNone) as [e0|uid]; [reflexivity|].
    destruct (int8_encode uid) as [e0|tg]; [reflexivity | discriminate].
  - intros v. unfold flyer_webhook, bind, lift.
    destruct (json_body req) as [e0|payload]; [discriminate|].
    destruct (py_get payload "type" PNone) as [e0|event_type];
      [discriminate|].
    destruct (py_get payload "data" (PDict [])) as [e0|data];
      [discriminate|].
    destruct (py_eq_str event_type "sub_completed").
    + destruct (py_get data "user_id" PNone) as [e0|uid]; [discriminate|].
      destruct (int8_encode uid) as [e0|tg]; [discriminate|].
      cbn [fst execute ret]. intros H. injection H as <-. reflexivity.
    + cbn [fst ret]. intros H. injection H as <-. reflexivity.
  - intros e B. unfold flyer_webhook, bind, lift. rewrite B. reflexivity.
  - intros payload B N. unfold flyer_webhook, bind, lift. rewrite B.
    destruct payload; try reflexivity.
    destruct (N members eq_refl).
Qed.

(** ** A run of upserts *)

Lemma coalesce_assoc {A : Type} (a b c : option A) :
  coalesce (coalesce a b) c = coalesce a (coalesce b c).
Proof. destruct a; reflexivity. Qed.

Lemma last_cons_default {A : Type} (a : A) (l : list A) (d d' : A) :
  last (a :: l) d = last (a :: l) d'.
Proof.
  revert a. induction l as [|b l IH]; intros a; [reflexivity|].
  change (last (b :: l) d = last (b :: l) d'). apply IH.
Qed.

Lemma upsert_each_cons (u : user) (source : option string) (passed : bool)
    (rest : list (user * option string * bool)) (w : world) :
  in_int8 (user_id u) = true ->
  upsert_each ((u, source, passed) :: rest) w =
  upsert_each rest
    {| db := sql_upsert_user (now (statements w)) (user_id u)
               (truthy (user_is_premium u)) source passed (db w);
       statements := S (statements w);
       flyer_calls := flyer_calls w;
       outbox := outbox w |}.
Proof.
  intros R. cbn [upsert_each]. unfold bind.
  rewrite (upsert_user_ok _ _ _ _ R). reflexivity.
Qed.

(** X12. A run of upserts of one identity merges field by field: after
    upserting the observations in order, the stored [flyer_passed] is the
    disjunction of the flag stored before and all the results, the stored
    source is the first non-null one among the source stored before and
    the observed ones, [is_premium] is the one of the last observation,
    and the creation time is the old one, or the time of the first upsert
    for a new profile. *)
Theorem upserts_merge (tg : Z) (o : user * option string * bool)
    (rest : list (user * option string * bool)) (w : world) :
  in_int8 tg = true ->
  Forall (fun ob => user_id (fst (fst ob)) = tg) (o :: rest) ->
  exists r',
    profile tg (snd (upsert_each (o :: rest) w)) = Some r'
    /\ u_flyer_passed r' =
       match profile tg w with
       | Some r => u_flyer_passed r
       | None => false
       end || existsb (fun ob => snd ob) (o :: rest)
    /\ u_source r' =
       coalesce match profile tg w with
                | Some r => u_source r
                | None => None
                end
         (first_source (map (fun ob => snd (fst ob)) (o :: rest)))
    /\ u_is_premium r' = truthy (user_is_premium (fst (fst (last rest o))))
    /\ u_created_at r' =
       match profile tg w with
       | Some r => u_created_at r
       | None => now (statements w)
       end.
Proof.
  intros R. revert o w.
  induction rest as [|o2 rest IH]; intros [[u s] p] w F.
  - inversion F as [|x l Hu _]. subst x l. cbn [fst] in Hu. subst tg.
    rewrite upsert_each_cons by exact R. cbn [upsert_each ret snd].
    unfold profile. cbn [db]. rewrite find_user_upsert, Z.eqb_refl.
    cbv zeta. eexists. split; [reflexivity|].
    destruct (find_user (user_id u) (users (db w))) as [r|]; simpl.
    + rewrite orb_false_r. repeat split.
      destruct (u_source r); [reflexivity | destruct s; reflexivity].
    + rewrite orb_false_r. repeat split. destruct s; reflexivity.
  - inversion F as [|x l Hu F']. subst x l. cbn [fst] in Hu. subst tg.
    rewrite upsert_each_cons by exact R.
    set (w1 := {| db := _; statements := _; flyer_calls := _;
                  outbox := _ |}).
    destruct (IH o2 w1 F') as [r' [P' [Hp [Hs [Hm Hc]]]]].
    assert (P1 : profile (user_id u) w1 =
                 Some match profile (user_id u) w with
                      | Some r =>
                          on_conflict_update (now (statements w)) r
                            {| u_id := users_seq (db w);
                               u_tg_id := user_id u;
                               u_is_premium := truthy (user_is_premium u);
                               u_source := s; u_flyer_passed := p;
                               u_created_at := now (statements w);
                               u_last_seen_at := now (statements w) |}
                      | None =>
                          {| u_id := users_seq (db w);
                             u_tg_id := user_id u;
                             u_is_premium := truthy (user_is_premium u);
                             u_source := s; u_flyer_passed := p;
                             u_created_at := now (statements w);
                             u_last_seen_at := now (statements w) |}
                      end).
    { unfold profile, w1. cbn [db].
      rewrite find_user_upsert, Z.eqb_refl. reflexivity. }
    rewrite P1 in Hp, Hs, Hc.
    exists r'. split; [exact P'|].
    split; [|split; [|split]].
    + rewrite Hp. cbn [existsb snd].
      destruct (profile (user_id u) w) as [r|]; cbn [u_flyer_passed
        on_conflict_update]; [destruct (u_flyer_passed r)|]; destruct p;
        reflexivity.
    + rewrite Hs. cbn [map first_source fold_right fst snd].
      destruct (profile (user_id u) w) as [r|]; cbn [u_source
        on_conflict_update].
      * apply coalesce_assoc.
      * reflexivity.
    + rewrite Hm.
      replace (last (o2 :: rest) (u, s, p)) with (last rest o2);
        [reflexivity|].
      destruct rest as [|o3 rest]; [reflexivity|].
      change (last (o3 :: rest) o2 = last (o3 :: rest) (u, s, p)).
      apply last_cons_default.
    + rewrite Hc.
      destruct (profile (user_id u) w) as [r|]; reflexivity.
Qed.

(** ** Whose rows an operation touches *)

(** X18. With one row per identity, a webhook changes at most one
    profile: any two rows that differ after the request are the same
    row, so of two rows at different positions at least one is left as it
    was. *)
Theorem webhook_touches_one_row (req : request) (w : world) :
  one_row_per_identity (db w) ->
  (forall i j r1 r2,
      nth_error (users (db w)) i = Some r1 ->
      nth_error (users (db w)) j = Some r2 ->
      nth_error (users (db (snd (flyer_webhook req w)))) i <> Some r1 ->
      nth_error (users (db (snd (flyer_webhook req w)))) j <> Some r2 ->
      i = j)
  /\
  (forall i j r1 r2,
      nth_error (users (db w)) i = Some r1 ->
      nth_error (users (db w)) j = Some r2 ->
      i <> j ->
      nth_error (users (db (snd (flyer_webhook req w)))) i = Some r1
      \/ nth_error (users (db (snd (flyer_webhook req w)))) j = Some r2).
Proof.
  intros U.
  assert (same_row : forall t i j r1 r2,
             nth_error (users (db w)) i = Some r1 ->
             nth_error (users (db w)) j = Some r2 ->
             u_tg_id r1 = t -> u_tg_id r2 = t -> i = j).
  { intros t i j r1 r2 N1 N2 T1 T2. unfold one_row_per_identity in U.
    rewrite NoDup_nth_error in U. apply U.
    - rewrite length_map. apply nth_error_Some. congruence.
    - rewrite !nth_error_map, N1, N2. simpl. congruence. }
  split.
  - intros i j r1 r2 N1 N2.
    destruct (flyer_webhook_world req w) as [E | [[t|] E]]; rewrite E;
      cbn [db sql_update_passed users]; try congruence.
    rewrite !nth_error_map, N1, N2. cbn [option_map].
    destruct (Z.eqb_spec (u_tg_id r1) t) as [T1|]; [|congruence].
    destruct (Z.eqb_spec (u_tg_id r2) t) as [T2|]; [|congruence].
    intros _ _. exact (same_row t i j r1 r2 N1 N2 T1 T2).
  - intros i j r1 r2 N1 N2 D.
    destruct (flyer_webhook_world req w) as [E | [[t|] E]]; rewrite E;
      cbn [db sql_update_passed users]; auto.
    rewrite !nth_error_map, N1, N2. cbn [option_map].
    destruct (Z.eqb_spec (u_tg_id r1) t) as [T1|]; [|left; reflexivity].
    destruct (Z.eqb_spec (u_tg_id r2) t) as [T2|]; [|right; reflexivity].
    destruct (D (same_row t i j r1 r2 N1 N2 T1 T2)).
Qed.

Lemma int8_param_inv (n v : Z) : int8_param n = inr v -> v = n.
Proof.
  unfold int8_param, int8_encode. destruct (in_int8 n); [|discriminate].
  intros H. injection H as <-. reflexivity.
Qed.

Section OtherProfile.

Variable tg : Z.

Lemma same_profile_refl (d : database) : same_profile tg d d.
Proof using Type. reflexivity. Qed.

Lemma same_profile_trans (d1 d2 d3 : database) :
  same_profile tg d1 d2 -> same_profile tg d2 d3 -> same_profile tg d1 d3.
Proof using Type. unfold same_profile. congruence. Qed.

Lemma upsert_user_other (u : user) (source : option string) (passed : bool) :
  user_id u <> tg -> moves_db (same_profile tg) (upsert_user u source passed).
Proof.
  intros N w. unfold upsert_user, bind, lift.
  destruct (int8_param (user_id u)) as [e|v] eqn:I; [reflexivity|].
  apply int8_param_inv in I. subst v. unfold same_profile. cbn [snd execute db].
  rewrite find_user_upsert.
  rewrite (proj2 (Z.eqb_neq tg (user_id u))) by congruence. reflexivity.
Qed.

Lemma log_event_other (u : user) (event : string) (source : option string) :
  moves_db (same_profile tg) (log_event u event source).
Proof.
  intros w. unfold log_event, bind, lift.
  destruct (int8_param (user_id u)); reflexivity.
Qed.

Lemma ensure_access_other (m : message) (source : option string) :
  user_id (from_user m) <> tg ->
  moves_db (same_profile tg) (ensure_access m source).
Proof.
  intros N. unfold ensure_access. cbv zeta.
  apply (moves_bind _ same_profile_trans); [apply log_event_other|intros _].
  apply (moves_bind _ same_profile_trans);
    [apply (moves_check_flyer _ same_profile_refl) | intros ok].
  apply (moves_bind _ same_profile_trans);
    [now apply upsert_user_other | intros _].
  apply (moves_ret _ same_profile_refl).
Qed.

(** X19. A command touches no profile but its sender's: an upsert, a gate
    run, [/start] and [/menu] on behalf of one user leave the stored
    profile of every other identity exactly as it was, whether they return
    or raise. *)
Theorem commands_touch_own_profile (w : world) :
  (forall u source passed,
      user_id u <> tg ->
      profile tg (snd (upsert_user u source passed w)) = profile tg w)
  /\ (forall m source,
        user_id (from_user m) <> tg ->
        profile tg (snd (ensure_access m source w)) = profile tg w)
  /\ (forall call,
        user_id (cq_from_user call) <> tg ->
        profile tg (snd (ensure_access_cb call w)) = profile tg w)
  /\ (forall m,
        user_id (from_user m) <> tg ->
        profile tg (snd (start_cmd m w)) = profile tg w)
  /\ (forall m,
        user_id (from_user m) <> tg ->
        profile tg (snd (menu_cmd m w)) = profile tg w).
Proof.
  unfold profile. repeat split.
  - intros u source passed N. now apply upsert_user_other.
  - intros m source N. now apply ensure_access_other.
  - intros call N. revert w.
    change (moves_db (same_profile tg) (ensure_access_cb call)).
    unfold ensure_access_cb. cbv zeta.
    apply (moves_bind _ same_profile_trans);
      [apply (moves_check_flyer _ same_profile_refl) | intros ok].
    apply (moves_bind _ same_profile_trans);
      [now apply upsert_user_other | intros _].
    apply (moves_ret _ same_profile_refl).
  - intros m N. revert w. change (moves_db (same_profile tg) (start_cmd m)).
    unfold start_cmd.
    apply (moves_bind _ same_profile_trans);
      [apply (moves_lift _ same_profile_refl) | intros source].
    apply (moves_bind _ same_profile_trans); [apply log_event_other|intros _].
    apply (moves_bind _ same_profile_trans);
      [now apply ensure_access_other | intros ok].
    destruct ok; [apply (moves_answer _ same_profile_refl)
                 | apply (moves_ret _ same_profile_refl)].
  - intros m N. revert w. change (moves_db (same_profile tg) (menu_cmd m)).
    unfold menu_cmd.
    apply (moves_bind _ same_profile_trans); [apply log_event_other|intros _].
    apply (moves_bind _ same_profile_trans);
      [now apply ensure_access_other | intros ok].
    destruct ok; [apply (moves_answer _ same_profile_refl)
                 | apply (moves_ret _ same_profile_refl)].
Qed.

End OtherProfile.

End Gateway.

(** ** Start-up *)

Lemma required_present (v msg : string) :
  v <> "" -> required (Some v) msg = inr v.
Proof. intros N. destruct v; [congruence | reflexivity]. Qed.

(** C8. If any of the bot token, the premium key, the regular key and the
    store connection string is absent from the environment, loading the
    configuration raises; with the four present and not empty and no
    [PORT], it succeeds with port 8000, given that [int] reads ["8000"] as
    8000. *)
Theorem load_config_required (py_int : string -> exn + Z) :
  (forall env : environ,
      env "BOT_TOKEN" = None \/ env "FLYER_KEY_PREMIUM" = None
      \/ env "FLYER_KEY_REGULAR" = None \/ env "DATABASE_URL" = None ->
      exists e, load_config py_int env = inl e)
  /\
  (forall (env : environ) (token key_premium key_regular url : string),
      py_int "8000" = inr 8000 ->
      env "PORT" = None ->
      env "BOT_TOKEN" = Some token -> token <> "" ->
      env "FLYER_KEY_PREMIUM" = Some key_premium -> key_premium <> "" ->
      env "FLYER_KEY_REGULAR" = Some key_regular -> key_regular <> "" ->
      env "DATABASE_URL" = Some url -> url <> "" ->
      load_config py_int env =
      inr {| BOT_TOKEN := token;
             FLYER_KEY_PREMIUM := key_premium;
             FLYER_KEY_REGULAR := key_regular;
             DATABASE_URL := url;
             PORT := 8000 |}).
Proof.
  split.
  - intros env H. unfold load_config.
    destruct (py_int (getenv_default env "PORT" "8000")) as [e|port];
      [eexists; reflexivity|].
    destruct (required (env "BOT_TOKEN") _) as [e|token] eqn:E1;
      [eexists; reflexivity|].
    destruct (required (env "FLYER_KEY_PREMIUM") _) as [e|kp] eqn:E2;
      [eexists; reflexivity|].
    destruct (required (env "FLYER_KEY_REGULAR") _) as [e|kr] eqn:E3;
      [eexists; reflexivity|].
    destruct (required (env "DATABASE_URL") _) as [e|url] eqn:E4;
      [eexists; reflexivity|].
    exfalso.
    destruct H as [H|[H|[H|H]]]; rewrite H in *; discriminate.
  - intros env token kp kr url I P T Tn K1 K1n K2 K2n U Un.
    unfold load_config, getenv_default. rewrite P, I, T, K1, K2, U.
    rewrite !required_present by assumption. reflexivity.
Qed.

(** ** The two splits *)

Lemma not_space_not_blank (s : string) :
  all_chars not_space s = true -> all_chars not_blank s = true.
Proof.
  induction s as [|c s IH]; simpl; [reflexivity|].
  intros H. apply andb_prop in H. destruct H as [Hc Hs].
  rewrite (IH Hs), andb_true_r. unfold not_blank, not_space in *.
  destruct (Ascii.eqb_spec c " ") as [E|N]; [|reflexivity].
  subst c. discriminate Hc.
Qed.

Lemma split_sep_nonempty (sep : ascii) (s : string) : split_sep sep s <> [].
Proof.
  destruct s as [|c s]; simpl; [discriminate|].
  destruct (Ascii.eqb c sep); [discriminate|].
  destruct (split_sep sep s); discriminate.
Qed.

Lemma split_sep_whole (s : string) :
  all_chars not_blank s = true -> split_sep " " s = [s].
Proof.
  induction s as [|c s IH]; simpl; [reflexivity|].
  intros H. apply andb_prop in H. destruct H as [Hc Hs].
  unfold not_blank in Hc. apply negb_true_iff in Hc.
  rewrite Hc, (IH Hs). reflexivity.
Qed.

Lemma split_sep_prefix (s t : string) :
  all_chars not_blank s = true ->
  split_sep " " (s ++ String " " t) = s :: split_sep " " t.
Proof.
  induction s as [|c s IH]; simpl; [reflexivity|].
  intros H. apply andb_prop in H. destruct H as [Hc Hs].
  unfold not_blank in Hc. apply negb_true_iff in Hc.
  rewrite Hc, (IH Hs). reflexivity.
Qed.

Lemma split_sep_two (s : string) :
  all_chars not_blank s = false ->
  exists a b l, split_sep " " s = a :: b :: l.
Proof.
  induction s as [|c s IH]; simpl; [discriminate|].
  unfold not_blank at 1.
  destruct (Ascii.eqb c " ") eqn:E; simpl.
  - intros _. destruct (split_sep " " s) as [|b l] eqn:S.
    + destruct (split_sep_nonempty _ _ S).
    + eauto.
  - intros H. destruct (IH H) as [a [b [l S]]]. rewrite S. eauto.
Qed.

Lemma split_sep_pieces (s : string) :
  Forall (fun piece => all_chars not_blank piece = true) (split_sep " " s).
Proof.
  induction s as [|c s IH]; simpl; [repeat constructor|].
  destruct (Ascii.eqb c " ") eqn:E.
  - constructor; [reflexivity | exact IH].
  - destruct (split_sep " " s) as [|piece pieces].
    + repeat constructor. simpl. unfold not_blank. rewrite E. reflexivity.
    + inversion IH as [|x l Hp Hl]; subst. constructor; [|exact Hl].
      simpl. unfold not_blank at 1. rewrite E. exact Hp.
Qed.

Lemma append_snoc (a : string) (c : ascii) (s : string) :
  ((a ++ String c EmptyString) ++ s = a ++ String c s)%string.
Proof.
  induction a as [|x a IH]; simpl; [reflexivity|]. rewrite IH. reflexivity.
Qed.

Lemma append_empty (s : string) : (s ++ "" = s)%string.
Proof.
  induction s as [|c s IH]; simpl; [reflexivity|]. rewrite IH. reflexivity.
Qed.

Lemma split_ws_from_run (s : string) :
  all_chars not_space s = true ->
  forall tok t,
    split_ws_from tok (s ++ t) =
    split_ws_from
      match s with
      | EmptyString => tok
      | _ => Some match tok with
                  | Some a => (a ++ s)%string
                  | None => s
                  end
      end t.
Proof.
  induction s as [|c s IH]; intros H tok t; [reflexivity|].
  simpl in H. apply andb_prop in H. destruct H as [Hc Hs].
  unfold not_space in Hc. apply negb_true_iff in Hc.
  cbn [append split_ws_from]. rewrite Hc.
  destruct tok as [a|]; rewrite (IH Hs); destruct s; try reflexivity.
  rewrite append_snoc. reflexivity.
Qed.

Lemma split_ws_from_some (tok s : string) :
  (1 <= length (split_ws_from (Some tok) s))%nat.
Proof.
  revert tok. induction s as [|c s IH]; intros tok; simpl; [lia|].
  destruct (isspace c); [simpl; lia | apply IH].
Qed.

(** X13. A [/start] link in its usual form is read as intended: when the
    command and the token are not empty and hold no white space, the text
    made of the command, one space and the token, alone or followed by a
    space and anything, yields exactly the token as the source. *)
Theorem start_source_deep_link (cmd tok tail : string) :
  cmd <> "" -> tok <> "" ->
  all_chars not_space cmd = true ->
  all_chars not_space tok = true ->
  tail = "" \/ (exists rest, tail = String " " rest) ->
  start_source (cmd ++ " " ++ tok ++ tail) = inr (Some tok).
Proof.
  intros Nc Nt Hc Ht Tail. unfold start_source.
  assert (W : (2 <= length (split_ws (cmd ++ " " ++ tok ++ tail)))%nat).
  { unfold split_ws. rewrite (split_ws_from_run cmd Hc).
    destruct cmd as [|c cmd]; [congruence|].
    change (" " ++ tok ++ tail)%string with (String " " (tok ++ tail)).
    cbn [split_ws_from]. change (isspace " ") with true. cbv iota.
    rewrite (split_ws_from_run tok Ht).
    destruct tok as [|x tok]; [congruence|].
    pose proof (split_ws_from_some (String x tok) tail). simpl. lia. }
  destruct (Nat.ltb_spec 1 (length (split_ws (cmd ++ " " ++ tok ++ tail))))
    as [_|L]; [|lia].
  change (" " ++ tok ++ tail)%string with (String " " (tok ++ tail)).
  rewrite (split_sep_prefix cmd _ (not_space_not_blank _ Hc)).
  cbn [nth_error].
  destruct Tail as [-> | [rest ->]].
  - rewrite append_empty.
    rewrite (split_sep_whole tok (not_space_not_blank _ Ht)). reflexivity.
  - rewrite (split_sep_prefix tok _ (not_space_not_blank _ Ht)). reflexivity.
Qed.

(** X14. When [/start] raises on its text: the parse raises nothing but
    [IndexError], and it raises it exactly when the text has at least two
    runs of characters other than white space and no space character at
    all, that is when the runs are separated by tabs, line breaks or other
    white space only. *)
Theorem start_source_raises (text : string) :
  (forall e, start_source text = inl e -> e = IndexError)
  /\ (start_source text = inl IndexError <->
      (1 < length (split_ws text))%nat
      /\ all_chars not_blank text = true).
Proof.
  unfold start_source.
  destruct (Nat.ltb_spec 1 (length (split_ws text))) as [L|L].
  - destruct (all_chars not_blank text) eqn:B.
    + rewrite (split_sep_whole text B). cbn [nth_error].
      split; [intros e H; congruence|]. split; auto.
    + destruct (split_sep_two text B) as [a [b [l S]]]. rewrite S.
      cbn [nth_error]. split; [discriminate|].
      split; [discriminate | intros [_ H]; discriminate H].
  - split; [discriminate|]. split; [discriminate | intros [H _]; lia].
Qed.

(** X15. A source read from [/start] never holds a space: whenever the
    parse returns a token, the token has no space character, and the text
    does have one. *)
Theorem start_source_token_has_no_space (text tok : string) :
  start_source text = inr (Some tok) ->
  all_chars not_blank tok = true /\ all_chars not_blank text = false.
Proof.
  unfold start_source.
  destruct (1 <? length (split_ws text))%nat; [|discriminate].
  destruct (nth_error (split_sep " " text) 1) as [piece|] eqn:N;
    [|discriminate].
  intros H. injection H as <-. split.
  - pose proof (split_sep_pieces text) as F. rewrite Forall_forall in F.
    apply F. eapply nth_error_In. exact N.
  - destruct (all_chars not_blank text) eqn:B; [|reflexivity].
    rewrite (split_sep_whole text B) in N. discriminate N.
Qed.

(** ** What a loaded configuration guarantees *)

Lemma required_inv (value : option string) (msg v : string) :
  required value msg = inr v -> value = Some v /\ v <> "".
Proof.
  unfold required. destruct value as [[|c s]|]; try discriminate.
  simpl. intros H. injection H as <-. split; [reflexivity | discriminate].
Qed.

Lemma required_falsy (value : option string) (msg : string) :
  value = None \/ value = Some "" ->
  required value msg = inl (RuntimeError msg).
Proof. intros [-> | ->]; reflexivity. Qed.

(** X16. A configuration that loads is complete: each of the four
    credentials is the value of its environment variable and is not
    empty, and the port is what [int] reads from [PORT], or from ["8000"]
    when [PORT] is unset. *)
Theorem load_config_complete (py_int : string -> exn + Z) (env : environ)
    (c : config) :
  load_config py_int env = inr c ->
  (env "BOT_TOKEN" = Some (BOT_TOKEN c) /\ BOT_TOKEN c <> "")
  /\ (env "FLYER_KEY_PREMIUM" = Some (FLYER_KEY_PREMIUM c)
      /\ FLYER_KEY_PREMIUM c <> "")
  /\ (env "FLYER_KEY_REGULAR" = Some (FLYER_KEY_REGULAR c)
      /\ FLYER_KEY_REGULAR c <> "")
  /\ (env "DATABASE_URL" = Some (DATABASE_URL c) /\ DATABASE_URL c <> "")
  /\ py_int match env "PORT" with
            | Some p => p
            | None => "8000"
            end = inr (PORT c).
Proof.
  unfold load_config, getenv_default.
  destruct (py_int _) as [e|port] eqn:I; [discriminate|].
  destruct (required (env "BOT_TOKEN") _) as [e|token] eqn:E1;
    [discriminate|].
  destruct (required (env "FLYER_KEY_PREMIUM") _) as [e|kp] eqn:E2;
    [discriminate|].
  destruct (required (env "FLYER_KEY_REGULAR") _) as [e|kr] eqn:E3;
    [discriminate|].
  destruct (required (env "DATABASE_URL") _) as [e|url] eqn:E4;
    [discriminate|].
  intros H. injection H as <-. cbn [BOT_TOKEN FLYER_KEY_PREMIUM
    FLYER_KEY_REGULAR DATABASE_URL PORT].
  apply required_inv in E1, E2, E3, E4. repeat split; tauto.
Qed.

(** X17. The order of the start-up errors: a [PORT] that [int] refuses
    raises that error whatever else is set; otherwise the first of the bot
    token, the premium key, the regular key and the connection string that
    is unset or empty is the one named in the [RuntimeError]. *)
Theorem load_config_first_error (py_int : string -> exn + Z) (env : environ) :
  let falsy := fun name => env name = None \/ env name = Some "" in
  let set := fun name => exists v, env name = Some v /\ v <> "" in
  (forall e,
      py_int (getenv_default env "PORT" "8000") = inl e ->
      load_config py_int env = inl e)
  /\
  (forall port,
      py_int (getenv_default env "PORT" "8000") = inr port ->
      (falsy "BOT_TOKEN" ->
       load_config py_int env = inl (RuntimeError "❌ Missing BOT_TOKEN"))
      /\ (set "BOT_TOKEN" -> falsy "FLYER_KEY_PREMIUM" ->
          load_config py_int env =
          inl (RuntimeError "❌ Missing FLYER_KEY_PREMIUM"))
      /\ (set "BOT_TOKEN" -> set "FLYER_KEY_PREMIUM" ->
          falsy "FLYER_KEY_REGULAR" ->
          load_config py_int env =
          inl (RuntimeError "❌ Missing FLYER_KEY_REGULAR"))
      /\ (set "BOT_TOKEN" -> set "FLYER_KEY_PREMIUM" ->
          set "FLYER_KEY_REGULAR" -> falsy "DATABASE_URL" ->
          load_config py_int env =
          inl (RuntimeError "❌ Missing DATABASE_URL"))).
Proof.
  intros falsy set. subst falsy set. cbv beta. split.
  - intros e I. unfold load_config. rewrite I. reflexivity.
  - intros port I. unfold load_config. rewrite I. repeat split.
    + intros F. rewrite (required_falsy _ _ F). reflexivity.
    + intros [t [T Tn]] F. rewrite T, (required_present _ _ Tn).
      rewrite (required_falsy _ _ F). reflexivity.
    + intros [t [T Tn]] [k [K Kn]] F.
      rewrite T, (required_present _ _ Tn), K, (required_present _ _ Kn).
      rewrite (required_falsy _ _ F). reflexivity.
    + intros [t [T Tn]] [k [K Kn]] [g [G Gn]] F.
      rewrite T, (required_present _ _ Tn), K, (required_present _ _ Kn),
        G, (required_present _ _ Gn).
      rewrite (required_falsy _ _ F). reflexivity.
Qed.

(** ** The scenario, run *)

Example split_sep_two_spaces :
  split_sep " " "/start  promo1" = ["/start"; ""; "promo1"].
Proof. reflexivity. Qed.

Example split_ws_two_spaces :
  split_ws "  /start  promo1 " = ["/start"; "promo1"].
Proof. reflexivity. Qed.

Example denied_start_is_silent :
  outbox (snd (start_cmd demo_cfg demo_now deny_all start42 initial_world))
  = [].
Proof. reflexivity. Qed.

Example webhook_on_user42 :
  profile 42 (snd (flyer_webhook demo_now (sub_completed (PInt 42)) world42))
  = Some (row42 None true).
Proof. reflexivity. Qed.

Example webhook_data_not_an_object :
  flyer_webhook demo_now sub_completed_null_data world42
  = (inl AttributeError, world42).
Proof. reflexivity. Qed.

Lemma flyer_passed_sticky_witness :
  (exists r',
      profile 42 (snd (upsert_user demo_now user42 None false
                         (world_of (row42 None true)))) = Some r'
      /\ u_flyer_passed r' = true)
  /\
  (exists r,
      profile 42
        (snd (ensure_access demo_cfg demo_now allow_once start42 None
                (snd (ensure_access demo_cfg demo_now allow_once start42 None
                        initial_world)))) = Some r
      /\ u_flyer_passed r = true).
Proof.
  split.
  - apply (proj1 (flyer_passed_sticky demo_cfg demo_now allow_once)
             (world_of (row42 None true)) 42 (row42 None true) user42
             None false); reflexivity.
  - apply (proj2 (flyer_passed_sticky demo_cfg demo_now allow_once)
             initial_world start42 None None); reflexivity.
Defined.

Lemma source_first_write_wins_witness :
  (exists r',
      profile 42 (snd (upsert_user demo_now user42 (Some "b") false
                         (world_of (row42 (Some "a") false)))) = Some r'
      /\ u_source r' = Some "a")
  /\
  (exists r,
      profile 42
        (snd (upsert_user demo_now user42 (Some "b") false
                (snd (upsert_user demo_now user42 (Some "a") false
                        initial_world)))) = Some r
      /\ u_source r = Some "a").
Proof.
  split.
  - apply (proj1 (source_first_write_wins demo_now)
             (world_of (row42 (Some "a") false)) 42 (row42 (Some "a") false)
             "a" user42 (Some "b") false); reflexivity.
  - apply (proj2 (source_first_write_wins demo_now)
             initial_world user42 "a" "b" false false).
    + reflexivity.
    + intros r H. discriminate H.
Defined.

Lemma check_flyer_routing_witness :
  exists c,
    flyer_calls (snd (check_flyer demo_cfg deny_all premium7 initial_world))
    = [c]
    /\ call_key c = "key-premium"
    /\ call_language_code c = "en".
Proof.
  destruct (check_flyer_routing demo_cfg deny_all premium7 initial_world)
    as [c [H1 [_ [_ [H4 [_ [H6 _]]]]]]].
  exists c. split; [exact H1|]. split.
  - apply H4. reflexivity.
  - apply (H6 "en"); [reflexivity | discriminate].
Defined.

Lemma start_cmd_gate_witness :
  fst (start_cmd demo_cfg demo_now deny_all start42 initial_world) = inr tt
  /\ outbox (snd (start_cmd demo_cfg demo_now deny_all start42 initial_world))
     = []
  /\ outbox (snd (start_cmd demo_cfg demo_now allow_all start42 initial_world))
     = [{| sent_chat := 42; sent_text := welcome_text false |}].
Proof.
  pose proof (start_cmd_gate demo_cfg demo_now deny_all start42 initial_world
                (check_call demo_cfg user42) eq_refl) as D.
  pose proof (start_cmd_gate demo_cfg demo_now allow_all start42 initial_world
                (check_call demo_cfg user42) eq_refl) as A.
  destruct (proj1 D eq_refl) as [D1 [D2 _]].
  destruct (proj2 A eq_refl) as [_ [A2 _]].
  repeat split; assumption.
Defined.

Lemma webhook_sub_completed_witness :
  (exists r',
      profile 42 (snd (flyer_webhook demo_now (sub_completed (PInt 42))
                         world42)) = Some r'
      /\ u_flyer_passed r' = true
      /\ r' = set_flyer_passed (row42 None false))
  /\ flyer_webhook demo_now ping world42 = (inr status_true, world42).
Proof.
  split.
  - apply (proj1 (webhook_sub_completed demo_now)
             (sub_completed (PInt 42)) world42
             (PDict [("type", PStr "sub_completed");
                     ("data", PDict [("user_id", PInt 42)])])
             (PDict [("user_id", PInt 42)]) 42 (row42 None false));
      reflexivity.
  - apply (proj2 (webhook_sub_completed demo_now) ping world42
             (PDict [("type", PStr "ping")]) (PStr "ping")); reflexivity.
Defined.

Lemma webhook_unknown_user_witness :
  (fst (flyer_webhook demo_now sub_completed_no_user world42)
   = inr status_true
   /\ db (snd (flyer_webhook demo_now sub_completed_no_user world42))
      = db world42)
  /\
  (fst (flyer_webhook demo_now (sub_completed PNone) world42)
   = inr status_true
   /\ db (snd (flyer_webhook demo_now (sub_completed PNone) world42))
      = db world42)
  /\
  (fst (flyer_webhook demo_now (sub_completed (PInt 99)) world42)
   = inr status_true
   /\ db (snd (flyer_webhook demo_now (sub_completed (PInt 99)) world42))
      = db world42).
Proof.
  split; [|split].
  - apply (webhook_unknown_user demo_now sub_completed_no_user world42
             (PDict [("type", PStr "sub_completed"); ("data", PDict [])])
             []); try reflexivity.
    left. reflexivity.
  - apply (webhook_unknown_user demo_now (sub_completed PNone) world42
             (PDict [("type", PStr "sub_completed");
                     ("data", PDict [("user_id", PNone)])])
             [("user_id", PNone)]); try reflexivity.
    right. left. reflexivity.
  - apply (webhook_unknown_user demo_now (sub_completed (PInt 99)) world42
             (PDict [("type", PStr "sub_completed");
                     ("data", PDict [("user_id", PInt 99)])])
             [("user_id", PInt 99)]); try reflexivity.
    right. right. exists 99. repeat split; reflexivity.
Defined.

Lemma webhook_unknown_user_raises :
  (forall r, In r (users (db world42)) -> u_tg_id r <> 2 ^ 63)
  /\ fst (flyer_webhook demo_now (sub_completed (PInt (2 ^ 63))) world42)
     = inl DataError
  /\ (forall r, In r (users (db world42)) -> PInt (u_tg_id r) <> PStr "abc")
  /\ fst (flyer_webhook demo_now (sub_completed (PStr "abc")) world42)
     = inl DataError
  /\ fst (flyer_webhook demo_now sub_completed_null_data world42)
     = inl AttributeError.
Proof.
  split; [|split; [|split; [|split]]].
  - intros r [<- | []]. discriminate.
  - reflexivity.
  - intros r _. discriminate.
  - reflexivity.
  - reflexivity.
Qed.

Lemma load_config_required_witness :
  (exists e, load_config demo_int demo_env_no_url = inl e)
  /\ load_config demo_int demo_env = inr demo_cfg.
Proof.
  split.
  - apply (proj1 (load_config_required demo_int) demo_env_no_url).
    right. right. right. reflexivity.
  - apply (proj2 (load_config_required demo_int) demo_env
             "bot-token" "key-premium" "key-regular" "postgres://store");
      try reflexivity; discriminate.
Defined.

Lemma one_profile_per_identity_witness :
  one_row_per_identity
    (db (perform demo_cfg demo_now deny_all (OpStart start42) initial_world))
  /\
  (let w1 := snd (upsert_user demo_now user42 None false initial_world) in
   length (users (db w1)) = 1%nat
   /\ count_rows 42 (users (db w1)) = 1%nat
   /\ length (users (db (snd (upsert_user demo_now user42 None true w1))))
      = 1%nat).
Proof.
  pose proof (one_profile_per_identity demo_cfg demo_now deny_all)
    as [E [K [_ U]]].
  split.
  - apply K. exact E.
  - destruct (U initial_world user42 None false eq_refl eq_refl)
      as [L [C N]].
    cbv zeta. split; [exact L|]. split; [exact C|].
    destruct (N None true) as [L' _]. rewrite L'. exact L.
Defined.

Lemma webhook_frame_witness :
  nth_error
    (users (db (snd (flyer_webhook demo_now (sub_completed (PInt 7))
                       world42)))) 0
  = Some (row42 None false).
Proof.
  pose proof (webhook_frame demo_now (sub_completed (PInt 7)) world42) as F.
  cbv zeta in F.
  destruct F as [_ [_ [_ [_ [_ [_ [_ O]]]]]]].
  apply (O (PDict [("type", PStr "sub_completed");
                   ("data", PDict [("user_id", PInt 7)])])
           (PDict [("user_id", PInt 7)]) 7);
    try reflexivity.
  discriminate.
Defined.

Lemma profiles_never_regress_witness :
  exists r',
    profile 42
      (perform_all demo_cfg demo_now deny_all
         [OpWebhook (sub_completed (PInt 42)); OpStart start42;
          OpMenu menu42]
         (world_of (row42 (Some "a") false))) = Some r'
    /\ u_id r' = 1
    /\ u_created_at r' = 900
    /\ u_source r' = Some "a".
Proof.
  destruct (profiles_never_regress demo_cfg demo_now deny_all
              [OpWebhook (sub_completed (PInt 42)); OpStart start42;
               OpMenu menu42]
              (world_of (row42 (Some "a") false)) 42
              (row42 (Some "a") false) eq_refl)
    as [r' [P [I [C [_ S]]]]].
  exists r'. split; [exact P|]. split; [exact I|]. split; [exact C|].
  apply S. reflexivity.
Defined.

Lemma keys_fresh_world42 : keys_fresh (db world42).
Proof.
  unfold keys_fresh. simpl. repeat split.
  - repeat constructor. intros [].
  - repeat constructor.
  - constructor.
  - constructor.
Defined.

Lemma primary_keys_stay_unique_witness :
  keys_fresh
    (db (perform_all demo_cfg demo_now allow_all
           [OpStart start42; OpStart start7; OpMenu menu42] world42)).
Proof.
  apply (primary_keys_stay_unique demo_cfg demo_now allow_all
           [OpStart start42; OpStart start7; OpMenu menu42] world42).
  exact keys_fresh_world42.
Defined.

Lemma events_carry_premium_witness :
  Forall (fun e => l_is_premium e <> None)
    (traffic_log
       (db (perform_all demo_cfg demo_now deny_all
              [OpStart start42; OpLogEvent premium7 "seen" None]
              initial_world))).
Proof.
  apply (events_carry_premium demo_cfg demo_now deny_all
           [OpStart start42; OpLogEvent premium7 "seen" None] initial_world).
  constructor.
Defined.

Lemma handlers_log_three_events_witness :
  Forall (fun e => In (l_event e) handler_events)
    (traffic_log
       (db (perform_all demo_cfg demo_now allow_all
              [OpStart start42; OpMenu menu42;
               OpWebhook (sub_completed (PInt 42))] initial_world))).
Proof.
  apply (handlers_log_three_events demo_cfg demo_now allow_all
           [OpStart start42; OpMenu menu42;
            OpWebhook (sub_completed (PInt 42))] initial_world).
  - reflexivity.
  - constructor.
Defined.

Lemma gate_ignores_store_witness :
  fst (ensure_access demo_cfg demo_now deny_all start42 None
         (world_of (row42 None true)))
  = fst (ensure_access demo_cfg demo_now deny_all start42 None initial_world).
Proof.
  apply (proj1 (gate_ignores_store demo_cfg demo_now deny_all start42 None)
           (world_of (row42 None true)) initial_world).
  reflexivity.
Defined.

Lemma check_failure_propagates_witness :
  fst (start_cmd demo_cfg demo_now flyer_down start42 initial_world)
  = inl FlyerError
  /\ users (db (snd (start_cmd demo_cfg demo_now flyer_down start42
                       initial_world))) = []
  /\ outbox (snd (start_cmd demo_cfg demo_now flyer_down start42
                    initial_world)) = [].
Proof.
  destruct (proj2 (check_failure_propagates demo_cfg demo_now flyer_down
                     start42 initial_world FlyerError eq_refl eq_refl)
              None eq_refl)
    as [H1 [H2 [H3 _]]].
  repeat split; assumption.
Defined.

Lemma menu_cmd_gate_witness :
  fst (menu_cmd demo_cfg demo_now allow_all menu42
         (world_of (row42 (Some "a") false))) = inr tt
  /\ outbox (snd (menu_cmd demo_cfg demo_now allow_all menu42
                    (world_of (row42 (Some "a") false))))
     = [{| sent_chat := 42; sent_text := menu_text |}].
Proof.
  destruct (menu_cmd_gate demo_cfg demo_now allow_all menu42
              (world_of (row42 (Some "a") false)) true eq_refl eq_refl)
    as [H1 [H2 _]].
  split; assumption.
Defined.

Lemma ensure_access_cb_quiet_witness :
  fst (ensure_access_cb demo_cfg demo_now allow_all callback42 world42)
  = inr true
  /\ traffic_log
       (db (snd (ensure_access_cb demo_cfg demo_now allow_all callback42
                   world42))) = [].
Proof.
  destruct (ensure_access_cb_quiet demo_cfg demo_now allow_all callback42
              world42) as [L [_ G]].
  destruct (G true eq_refl eq_refl) as [H1 _].
  split; assumption.
Defined.

Lemma webhook_fails_atomically_witness :
  snd (flyer_webhook demo_now (sub_completed (PStr "42")) world42) = world42
  /\ fst (flyer_webhook demo_now not_utf8 world42) = inl UnicodeDecodeError
  /\ fst (flyer_webhook demo_now {| json_body := inr (PList []) |} world42)
     = inl AttributeError.
Proof.
  split; [|split].
  - apply (proj1 (webhook_fails_atomically demo_now
                    (sub_completed (PStr "42")) world42)
             DataError eq_refl).
  - destruct (webhook_fails_atomically demo_now not_utf8 world42)
      as [_ [_ [D _]]].
    apply D. reflexivity.
  - destruct (webhook_fails_atomically demo_now
                {| json_body := inr (PList []) |} world42)
      as [_ [_ [_ A]]].
    apply (A (PList [])); [reflexivity | discriminate].
Defined.

Lemma upserts_merge_witness :
  exists r',
    profile 42
      (snd (upsert_each demo_now
              [(user42, None, false); (user42, Some "a", true);
               (user42, Some "b", false)] initial_world)) = Some r'
    /\ u_flyer_passed r' = true
    /\ u_source r' = Some "a".
Proof.
  destruct (upserts_merge demo_now 42 (user42, None, false)
              [(user42, Some "a", true); (user42, Some "b", false)]
              initial_world eq_refl)
    as [r' [P [F [S _]]]].
  - repeat constructor.
  - exists r'. split; [exact P|]. split; [exact F | exact S].
Defined.

Lemma start_source_deep_link_witness :
  start_source "/start promo1 extra" = inr (Some "promo1").
Proof.
  apply (start_source_deep_link "/start" "promo1" " extra").
  - discriminate.
  - discriminate.
  - reflexivity.
  - reflexivity.
  - right. exists "extra". reflexivity.
Defined.

Lemma start_source_raises_witness :
  start_source ("/start" ++ String "010" "promo1") = inl IndexError.
Proof.
  apply (proj2 (start_source_raises ("/start" ++ String "010" "promo1"))).
  split; [vm_compute; reflexivity | reflexivity].
Defined.

Lemma start_source_token_has_no_space_witness :
  all_chars not_blank "a" = true /\ all_chars not_blank "/start a b" = false.
Proof.
  apply (start_source_token_has_no_space "/start a b" "a"). reflexivity.
Defined.

Lemma load_config_complete_witness :
  demo_env "BOT_TOKEN" = Some "bot-token"
  /\ demo_int "8000" = inr 8000.
Proof.
  destruct (load_config_complete demo_int demo_env demo_cfg eq_refl)
    as [[T _] [_ [_ [_ I]]]].
  split; [exact T | exact I].
Defined.

Lemma load_config_first_error_witness :
  load_config demo_int demo_env_no_url
  = inl (RuntimeError "❌ Missing DATABASE_URL").
Proof.
  destruct (proj2 (load_config_first_error demo_int demo_env_no_url)
              8000 eq_refl) as [_ [_ [_ H]]].
  apply H.
  - exists "bot-token". split; [reflexivity | discriminate].
  - exists "key-premium". split; [reflexivity | discriminate].
  - exists "key-regular". split; [reflexivity | discriminate].
  - left. reflexivity.
Defined.

Lemma one_row_world_two : one_row_per_identity (db world_two).
Proof. repeat constructor; simpl; intuition discriminate. Defined.

Lemma webhook_touches_one_row_witness :
  one_row_per_identity (db world_two)
  /\ nth_error
       (users (db (snd (flyer_webhook demo_now (sub_completed (PInt 42))
                          world_two)))) 0
     = Some (row42 None true)
  /\ nth_error
       (users (db (snd (flyer_webhook demo_now (sub_completed (PInt 42))
                          world_two)))) 1
     = Some row7.
Proof.
  split; [exact one_row_world_two|]. split; [reflexivity|].
  destruct (proj2 (webhook_touches_one_row demo_now
                     (sub_completed (PInt 42)) world_two one_row_world_two)
              0%nat 1%nat (row42 None false) row7 eq_refl eq_refl)
    as [H | H].
  - discriminate.
  - discriminate H.
  - exact H.
Defined.

Lemma commands_touch_own_profile_witness :
  profile 42 (snd (start_cmd demo_cfg demo_now allow_all start7 world42))
  = profile 42 world42.
Proof.
  destruct (commands_touch_own_profile demo_cfg demo_now allow_all 42 world42)
    as [_ [_ [_ [S _]]]].
  apply S. discriminate.
Defined.
